(** * LFAST primary mirror control: kinematics, command buffer and command handlers

    A shallow embedding of [include/primary_mirror_ctrl.h] and [src/main.cpp].

    Conventions.
    - [getMotorPosnCommands] is given twice.  In the first reading a C++
      [double] is a real number ([R]) and [std::tan], [std::cos] are the real
      functions: it serves the algebra of the formula.  In the second
      ([Module Binary64]) a [double] is an IEEE 754 binary64 value with the
      operations of the machine: it serves what the integer conversion
      returns.
    - [unsigned int] is a 32-bit and [uint8_t] an 8-bit unsigned integer, kept
      as [Z] with the wrap-around written out; [int32_t] is a [Z] in
      [INT32_MIN .. INT32_MAX].
    - The bodies of the [PrimaryMirrorControl] member functions are not part of
      the two source files; the header only declares them.  Where a statement
      needs one of them it is modelled from the specification, and the
      definition says so. *)

From Stdlib Require Import Reals ZArith List String Bool Lra Lia Floats.
Import ListNotations.

Local Open Scope R_scope.

(** ** Numeric conversions *)

Definition INT32_MIN : Z := (-2147483648)%Z.
Definition INT32_MAX : Z := 2147483647%Z.

(** Conversion of a floating value to an integer type discards the fractional
    part (truncation toward zero). *)
Definition Rtrunc (x : R) : Z :=
  if Rle_dec 0 x then Int_part x else (- Int_part (- x))%Z.

(** [round] of <cmath>: nearest integer, halfway cases away from zero. *)
Definition Rround (x : R) : Z :=
  if Rle_dec 0 x then Int_part (x + / 2) else (- Int_part (- x + / 2))%Z.

(** The template parameter [T] of [getMotorPosnCommands]: a type with a cast
    [(T)(double)].  The cast is undefined ([None]) when the truncated value
    does not fit the destination type. *)
Class StepType (T : Type) : Type := static_cast : R -> option T.

#[export] Instance StepType_int32 : StepType Z := fun x =>
  let z := Rtrunc x in
  if ((INT32_MIN <=? z) && (z <=? INT32_MAX))%Z then Some z else None.

#[export] Instance StepType_double : StepType R := fun x => Some x.

Definition bind {A B : Type} (o : option A) (k : A -> option B) : option B :=
  match o with
  | Some a => k a
  | None => None
  end.

Notation "x <- e ;; k" := (bind e (fun x => k))
  (at level 61, e at next level, right associativity).

(** ** primary_mirror_ctrl.h: constants *)

Definition MICROSTEP_DIVIDER : R := 16.
Definition MICROSTEP_RATIO : R := 1 / MICROSTEP_DIVIDER.
Definition MICRON_PER_STEP : R := 3 * MICROSTEP_RATIO.
Definition STEPS_PER_MICRON : R := 1 / MICRON_PER_STEP.

Definition MIRROR_MATH_COEFFS : list R := [281.3; -140.6; 243.6].

(** ** primary_mirror_ctrl.h: class MirrorStates *)

Record MirrorStates : Type := mkMirrorStates {
  TIP_POS_ENG : R;
  TILT_POS_ENG : R;
  FOCUS_POS_ENG : R
}.

(** [const double c[3] = MIRROR_MATH_COEFFS] *)
Definition c (i : nat) : R := nth i MIRROR_MATH_COEFFS 0.

(** The three local distances of [getMotorPosnCommands]. *)
Definition a_distance (this : MirrorStates) : R :=
  let tanAlpha := tan (TIP_POS_ENG this) in
  let gamma := FOCUS_POS_ENG this in
  gamma + (c 0 * tanAlpha).

Definition b_distance (this : MirrorStates) : R :=
  let tanAlpha := tan (TIP_POS_ENG this) in
  let cosAlpha := cos (TIP_POS_ENG this) in
  let tanBeta := tan (TILT_POS_ENG this) in
  let gamma := FOCUS_POS_ENG this in
  gamma + (c 1 * tanAlpha + c 2 * tanBeta / cosAlpha).

Definition c_distance (this : MirrorStates) : R :=
  let tanAlpha := tan (TIP_POS_ENG this) in
  let cosAlpha := cos (TIP_POS_ENG this) in
  let tanBeta := tan (TILT_POS_ENG this) in
  let gamma := FOCUS_POS_ENG this in
  gamma + (c 1 * tanAlpha - c 2 * tanBeta / cosAlpha).

(** [template <typename T> void getMotorPosnCommands(T *a_steps, T *b_steps,
    T *c_steps) const]: the three out-parameters are returned as a triple. *)
Definition getMotorPosnCommands {T : Type} `{StepType T}
    (this : MirrorStates) : option (T * T * T) :=
  a_steps <- static_cast (a_distance this * STEPS_PER_MICRON) ;;
  b_steps <- static_cast (b_distance this * STEPS_PER_MICRON) ;;
  c_steps <- static_cast (c_distance this * STEPS_PER_MICRON) ;;
  Some (a_steps, b_steps, c_steps).

(** [void reset()] *)
Definition reset (this : MirrorStates) : MirrorStates :=
  mkMirrorStates 0 0 0.

(** ** The kinematic formula as the specification words it *)

Definition spec_distA (c0 c1 c2 tip tilt focus : R) : R :=
  focus + c0 * tan tip.
Definition spec_distB (c0 c1 c2 tip tilt focus : R) : R :=
  focus + c1 * tan tip + c2 * tan tilt / cos tip.
Definition spec_distC (c0 c1 c2 tip tilt focus : R) : R :=
  focus + c1 * tan tip - c2 * tan tilt / cos tip.
Definition spec_steps (dist : R) : Z := Rround (dist * STEPS_PER_MICRON).

(** ** primary_mirror_ctrl.h: [MirrorStates::operator=]

    The function as a state transformer: the three engineering values of
    [other] are stored into [*this] (the coefficient array is [const] and is
    not assigned). *)
Definition operator_assign (this other : MirrorStates) : MirrorStates :=
  mkMirrorStates (TIP_POS_ENG other) (TILT_POS_ENG other) (FOCUS_POS_ENG other).

(** The same body statement by statement, on a machine with an interrupt mask.
    [other] can be rewritten by an interrupt handler that preempts the copy.
    A request raised while interrupts are masked is held back by the hardware
    until they are enabled again; it has no effect on the two objects while
    the mask is set. *)
Inductive assign_stmt : Type :=
  | S_noInterrupts
  | S_copy_TIP
  | S_copy_TILT
  | S_copy_FOCUS
  | S_interrupts.

Definition operator_assign_body : list assign_stmt :=
  [S_noInterrupts; S_copy_TIP; S_copy_TILT; S_copy_FOCUS; S_interrupts].

Definition isr : Type := MirrorStates -> MirrorStates.

Record copy_machine : Type := mkCopyMachine {
  cm_this : MirrorStates;
  cm_other : MirrorStates;
  cm_irq_enabled : bool
}.

(** An interrupt request arriving before the next statement: its handler
    runs at once when interrupts are enabled, not while they are masked. *)
Definition raise_irq (req : option isr) (m : copy_machine) : copy_machine :=
  match req with
  | None => m
  | Some h =>
      if cm_irq_enabled m
      then mkCopyMachine (cm_this m) (h (cm_other m)) true
      else m
  end.

Definition exec_stmt (st : assign_stmt) (m : copy_machine) : copy_machine :=
  let t := cm_this m in
  let o := cm_other m in
  match st with
  | S_noInterrupts => mkCopyMachine t o false
  | S_copy_TIP =>
      mkCopyMachine (mkMirrorStates (TIP_POS_ENG o) (TILT_POS_ENG t) (FOCUS_POS_ENG t))
        o (cm_irq_enabled m)
  | S_copy_TILT =>
      mkCopyMachine (mkMirrorStates (TIP_POS_ENG t) (TILT_POS_ENG o) (FOCUS_POS_ENG t))
        o (cm_irq_enabled m)
  | S_copy_FOCUS =>
      mkCopyMachine (mkMirrorStates (TIP_POS_ENG t) (TILT_POS_ENG t) (FOCUS_POS_ENG o))
        o (cm_irq_enabled m)
  | S_interrupts => mkCopyMachine t o true
  end.

(** Run the statements; [reqs] gives, statement by statement, the interrupt
    request (if any) that arrives just before it. *)
Fixpoint run_stmts (sts : list assign_stmt) (reqs : list (option isr))
    (m : copy_machine) : copy_machine :=
  match sts with
  | [] => m
  | st :: sts' =>
      run_stmts sts' (tl reqs) (exec_stmt st (raise_irq (hd None reqs) m))
  end.

(** ** primary_mirror_ctrl.h: enumerations *)

Module PMC.
Inductive ControlMode : Type := STOP | RELATIVE | ABSOLUTE.

Definition ControlMode_value (m : ControlMode) : Z :=
  match m with STOP => 0 | RELATIVE => 1 | ABSOLUTE => 2 end%Z.

Inductive MOTOR_ID : Type := MOTOR_A | MOTOR_B | MOTOR_C.

Definition MOTOR_ID_value (m : MOTOR_ID) : Z :=
  match m with MOTOR_A => 0 | MOTOR_B => 1 | MOTOR_C => 2 end%Z.
End PMC.

Inductive MOVE_STATE : Type :=
  | IDLE
  | NEW_MOVE_CMD
  | MOVE_IN_PROGRESS
  | MOVE_COMPLETE
  | LIMIT_SW_DETECT
  | HOMING_IS_ACTIVE.

Inductive HOMING_STATE : Type :=
  | INITIALIZE
  | HOMING_STEP_1
  | HOMING_STEP_2
  | HOMING_STEP_3
  | HOMING_STEP_4
  | HOMING_STEP_5.

(** ** Integer widths *)

Definition UINT_MAX : Z := 4294967295%Z.

(** Implicit conversion of an [unsigned int] argument to a [uint8_t]
    parameter. *)
Definition to_uint8 (n : Z) : Z := (n mod 256)%Z.

(** ** Collaborators of the controller *)

(** Modelled from the spec: the step-pulse generator behind
    [MultiStepper *stepperControl] (its class is not part of the sources); only
    the velocity it currently commands on each actuator is kept. *)
Record MultiStepper : Type := mkMultiStepper {
  speed_A : R;
  speed_B : R;
  speed_C : R
}.

Definition commandedSpeed (ms : MultiStepper) (m : PMC.MOTOR_ID) : R :=
  match m with
  | PMC.MOTOR_A => speed_A ms
  | PMC.MOTOR_B => speed_B ms
  | PMC.MOTOR_C => speed_C ms
  end.

(** Modelled from the spec: the [PersistentPositionRecord] held in non-volatile
    storage (the storage driver is not part of the sources). *)
Record PersistentPositionRecord : Type := mkRecord {
  rec_a : Z;
  rec_b : Z;
  rec_c : Z;
  rec_valid : bool
}.

(** The [volatile bool] objects of main.cpp whose address can be handed to the
    controller as a notifier flag. *)
Inductive flag_object : Type := The_moveCompleteFlag.

(** ** primary_mirror_ctrl.h: class PrimaryMirrorControl (data members) *)

Record PrimaryMirrorControl : Type := mkPMC {
  stepperControl : MultiStepper;
  CommandStates_Eng : MirrorStates;
  ShadowCommandStates_Eng : MirrorStates;
  controlMode : Z;
  steppersEnabled : bool;
  focusUpdated : bool;
  tipUpdated : bool;
  tiltUpdated : bool;
  A_cmdSteps : Z;
  B_cmdSteps : Z;
  C_cmdSteps : Z;
  limitFound_A : bool;
  limitFound_B : bool;
  limitFound_C : bool;
  homingSpeedStepsPerSec : R;
  currentMoveState : MOVE_STATE;
  currentHomingState : HOMING_STATE;
  moveNotifierFlagPtr : option flag_object;
  homeNotifierFlagPtr : option flag_object
}.

(** ** class PrimaryMirrorControl: member functions

    The header declares these functions; their bodies are in a translation
    unit that is not among the sources. *)

(** Modelled from the spec: [setTipTarget] (body missing) writes the value into
    the shadow buffer and raises the per-axis "updated" flag. *)
Definition setTipTarget (tgt : R) (p : PrimaryMirrorControl) : PrimaryMirrorControl :=
  let sh := ShadowCommandStates_Eng p in
  mkPMC (stepperControl p) (CommandStates_Eng p)
    (mkMirrorStates tgt (TILT_POS_ENG sh) (FOCUS_POS_ENG sh))
    (controlMode p) (steppersEnabled p)
    (focusUpdated p) true (tiltUpdated p)
    (A_cmdSteps p) (B_cmdSteps p) (C_cmdSteps p)
    (limitFound_A p) (limitFound_B p) (limitFound_C p)
    (homingSpeedStepsPerSec p) (currentMoveState p) (currentHomingState p)
    (moveNotifierFlagPtr p) (homeNotifierFlagPtr p).

(** Modelled from the spec: [setTiltTarget] (body missing), as [setTipTarget]
    for the tilt field. *)
Definition setTiltTarget (tgt : R) (p : PrimaryMirrorControl) : PrimaryMirrorControl :=
  let sh := ShadowCommandStates_Eng p in
  mkPMC (stepperControl p) (CommandStates_Eng p)
    (mkMirrorStates (TIP_POS_ENG sh) tgt (FOCUS_POS_ENG sh))
    (controlMode p) (steppersEnabled p)
    (focusUpdated p) (tipUpdated p) true
    (A_cmdSteps p) (B_cmdSteps p) (C_cmdSteps p)
    (limitFound_A p) (limitFound_B p) (limitFound_C p)
    (homingSpeedStepsPerSec p) (currentMoveState p) (currentHomingState p)
    (moveNotifierFlagPtr p) (homeNotifierFlagPtr p).

(** Modelled from the spec: [setFocusTarget] (body missing), as [setTipTarget]
    for the focus field. *)
Definition setFocusTarget (tgt : R) (p : PrimaryMirrorControl) : PrimaryMirrorControl :=
  let sh := ShadowCommandStates_Eng p in
  mkPMC (stepperControl p) (CommandStates_Eng p)
    (mkMirrorStates (TIP_POS_ENG sh) (TILT_POS_ENG sh) tgt)
    (controlMode p) (steppersEnabled p)
    true (tipUpdated p) (tiltUpdated p)
    (A_cmdSteps p) (B_cmdSteps p) (C_cmdSteps p)
    (limitFound_A p) (limitFound_B p) (limitFound_C p)
    (homingSpeedStepsPerSec p) (currentMoveState p) (currentHomingState p)
    (moveNotifierFlagPtr p) (homeNotifierFlagPtr p).

(** Modelled from the spec: [copyShadowToActive] (body missing) assigns the
    shadow buffer to the active one with [MirrorStates::operator=]. *)
Definition copyShadowToActive (p : PrimaryMirrorControl) : PrimaryMirrorControl :=
  mkPMC (stepperControl p)
    (operator_assign (CommandStates_Eng p) (ShadowCommandStates_Eng p))
    (ShadowCommandStates_Eng p)
    (controlMode p) (steppersEnabled p)
    (focusUpdated p) (tipUpdated p) (tiltUpdated p)
    (A_cmdSteps p) (B_cmdSteps p) (C_cmdSteps p)
    (limitFound_A p) (limitFound_B p) (limitFound_C p)
    (homingSpeedStepsPerSec p) (currentMoveState p) (currentHomingState p)
    (moveNotifierFlagPtr p) (homeNotifierFlagPtr p).

Definition clearUpdatedFlags (p : PrimaryMirrorControl) : PrimaryMirrorControl :=
  mkPMC (stepperControl p) (CommandStates_Eng p) (ShadowCommandStates_Eng p)
    (controlMode p) (steppersEnabled p)
    false false false
    (A_cmdSteps p) (B_cmdSteps p) (C_cmdSteps p)
    (limitFound_A p) (limitFound_B p) (limitFound_C p)
    (homingSpeedStepsPerSec p) (currentMoveState p) (currentHomingState p)
    (moveNotifierFlagPtr p) (homeNotifierFlagPtr p).

(** Modelled from the spec: [checkForNewCommand] (body missing): when any of
    the three "updated" flags is set, the shadow buffer is copied to the active
    one, the flags are cleared and the result is [true]. *)
Definition checkForNewCommand (p : PrimaryMirrorControl)
    : bool * PrimaryMirrorControl :=
  if focusUpdated p || tipUpdated p || tiltUpdated p
  then (true, clearUpdatedFlags (copyShadowToActive p))
  else (false, p).

(** Modelled from the spec: [stopNow] (body missing) halts the step-pulse
    generator and resets both state machines. *)
Definition stopNow (p : PrimaryMirrorControl) : PrimaryMirrorControl :=
  mkPMC (mkMultiStepper 0 0 0) (CommandStates_Eng p) (ShadowCommandStates_Eng p)
    (controlMode p) (steppersEnabled p)
    (focusUpdated p) (tipUpdated p) (tiltUpdated p)
    (A_cmdSteps p) (B_cmdSteps p) (C_cmdSteps p)
    (limitFound_A p) (limitFound_B p) (limitFound_C p)
    (homingSpeedStepsPerSec p) IDLE INITIALIZE
    (moveNotifierFlagPtr p) (homeNotifierFlagPtr p).

(** Modelled from the spec: [setControlMode(uint8_t moveType)] (body missing)
    stores its parameter in the [uint8_t controlMode] member. *)
Definition setControlMode (moveType : Z) (p : PrimaryMirrorControl)
    : PrimaryMirrorControl :=
  mkPMC (stepperControl p) (CommandStates_Eng p) (ShadowCommandStates_Eng p)
    moveType (steppersEnabled p)
    (focusUpdated p) (tipUpdated p) (tiltUpdated p)
    (A_cmdSteps p) (B_cmdSteps p) (C_cmdSteps p)
    (limitFound_A p) (limitFound_B p) (limitFound_C p)
    (homingSpeedStepsPerSec p) (currentMoveState p) (currentHomingState p)
    (moveNotifierFlagPtr p) (homeNotifierFlagPtr p).

(** Modelled from the spec: [setMoveNotifierFlag(volatile bool *flagPtr)]
    (body missing) stores the pointer in [moveNotifierFlagPtr]. *)
Definition setMoveNotifierFlag (flagPtr : option flag_object)
    (p : PrimaryMirrorControl) : PrimaryMirrorControl :=
  mkPMC (stepperControl p) (CommandStates_Eng p) (ShadowCommandStates_Eng p)
    (controlMode p) (steppersEnabled p)
    (focusUpdated p) (tipUpdated p) (tiltUpdated p)
    (A_cmdSteps p) (B_cmdSteps p) (C_cmdSteps p)
    (limitFound_A p) (limitFound_B p) (limitFound_C p)
    (homingSpeedStepsPerSec p) (currentMoveState p) (currentHomingState p)
    flagPtr (homeNotifierFlagPtr p).

(** Modelled from the spec: [setHomingCompleteNotifierFlag] (body missing)
    stores the pointer in [homeNotifierFlagPtr]. *)
Definition setHomingCompleteNotifierFlag (flagPtr : option flag_object)
    (p : PrimaryMirrorControl) : PrimaryMirrorControl :=
  mkPMC (stepperControl p) (CommandStates_Eng p) (ShadowCommandStates_Eng p)
    (controlMode p) (steppersEnabled p)
    (focusUpdated p) (tipUpdated p) (tiltUpdated p)
    (A_cmdSteps p) (B_cmdSteps p) (C_cmdSteps p)
    (limitFound_A p) (limitFound_B p) (limitFound_C p)
    (homingSpeedStepsPerSec p) (currentMoveState p) (currentHomingState p)
    (moveNotifierFlagPtr p) flagPtr.

(** *** Position persistence *)

(** Modelled from the spec: [load() -> Option<StepCounts>] gives nothing when
    the validity marker of the stored record is unset. *)
Definition load (e : PersistentPositionRecord) : option (Z * Z * Z) :=
  if rec_valid e then Some (rec_a e, rec_b e, rec_c e) else None.

(** Modelled from the spec: [saveStepperPositionsToEeprom] (body missing)
    writes the step counts with [valid = true]. *)
Definition saveStepperPositionsToEeprom (p : PrimaryMirrorControl)
    (e : PersistentPositionRecord) : PersistentPositionRecord :=
  mkRecord (A_cmdSteps p) (B_cmdSteps p) (C_cmdSteps p) true.

(** Modelled from the spec: [resetPositionsInEeprom] (body missing) forces
    [valid = false]. *)
Definition resetPositionsInEeprom (e : PersistentPositionRecord)
    : PersistentPositionRecord :=
  mkRecord (rec_a e) (rec_b e) (rec_c e) false.

(** Modelled from the spec: [loadCurrentPositionsFromEeprom] (body missing)
    restores the step counts from the stored record when [load] gives one. *)
Definition loadCurrentPositionsFromEeprom (e : PersistentPositionRecord)
    (p : PrimaryMirrorControl) : PrimaryMirrorControl :=
  match load e with
  | Some (a, b, c0) =>
      mkPMC (stepperControl p) (CommandStates_Eng p) (ShadowCommandStates_Eng p)
        (controlMode p) (steppersEnabled p)
        (focusUpdated p) (tipUpdated p) (tiltUpdated p)
        a b c0
        (limitFound_A p) (limitFound_B p) (limitFound_C p)
        (homingSpeedStepsPerSec p) (currentMoveState p) (currentHomingState p)
        (moveNotifierFlagPtr p) (homeNotifierFlagPtr p)
  | None => p
  end.

(** ** main.cpp: the transport as the firmware sees it *)

Inductive Value : Type :=
  | V_uint (n : Z)
  | V_bool (b : bool)
  | V_string (s : string)
  | V_double (x : R).

(** [LFAST::CommsMessage]: key/value pairs in the order they were added. *)
Definition CommsMessage : Type := list (string * Value).

Definition addKeyValuePair (key : string) (v : Value) (m : CommsMessage)
    : CommsMessage :=
  m ++ [(key, v)].

Inductive Destination : Type := ACTIVE_CONNECTION.

(** The objects main.cpp works on: the controller behind [pPmc], the stored
    position record, the global [moveCompleteFlag], the processor's interrupt
    mask, the periodic control interrupt, the messages handed to
    [commsService->sendMessage] and the lines printed on [cli]. *)
Record World : Type := mkWorld {
  pPmc : PrimaryMirrorControl;
  eeprom : PersistentPositionRecord;
  moveCompleteFlag : bool;
  interruptsEnabled : bool;
  controlInterruptEnabled : bool;
  outbox : list (CommsMessage * Destination);
  debugMessages : list string
}.

Definition on_pmc (f : PrimaryMirrorControl -> PrimaryMirrorControl) (w : World)
    : World :=
  mkWorld (f (pPmc w)) (eeprom w) (moveCompleteFlag w) (interruptsEnabled w)
    (controlInterruptEnabled w) (outbox w) (debugMessages w).

Definition on_eeprom (f : PersistentPositionRecord -> PersistentPositionRecord)
    (w : World) : World :=
  mkWorld (pPmc w) (f (eeprom w)) (moveCompleteFlag w) (interruptsEnabled w)
    (controlInterruptEnabled w) (outbox w) (debugMessages w).

Definition set_moveCompleteFlag (b : bool) (w : World) : World :=
  mkWorld (pPmc w) (eeprom w) b (interruptsEnabled w)
    (controlInterruptEnabled w) (outbox w) (debugMessages w).

Definition noInterrupts (w : World) : World :=
  mkWorld (pPmc w) (eeprom w) (moveCompleteFlag w) false
    (controlInterruptEnabled w) (outbox w) (debugMessages w).

Definition interrupts (w : World) : World :=
  mkWorld (pPmc w) (eeprom w) (moveCompleteFlag w) true
    (controlInterruptEnabled w) (outbox w) (debugMessages w).

(** Modelled from the spec: [enableControlInterrupt] (body missing) starts the
    periodic control tick. *)
Definition enableControlInterrupt (w : World) : World :=
  mkWorld (pPmc w) (eeprom w) (moveCompleteFlag w) (interruptsEnabled w)
    true (outbox w) (debugMessages w).

Definition sendMessage (msg : CommsMessage) (dest : Destination) (w : World)
    : World :=
  mkWorld (pPmc w) (eeprom w) (moveCompleteFlag w) (interruptsEnabled w)
    (controlInterruptEnabled w) (outbox w ++ [(msg, dest)]) (debugMessages w).

Definition printDebugMessage (line : string) (w : World) : World :=
  mkWorld (pPmc w) (eeprom w) (moveCompleteFlag w) (interruptsEnabled w)
    (controlInterruptEnabled w) (outbox w) (debugMessages w ++ [line]).

(** ** main.cpp: command handlers *)

(** [void handshake(unsigned int val)] *)
Definition handshake (val : Z) (w : World) : World :=
  if (val =? 0xDEAD)%Z then
    let newMsg := addKeyValuePair "Handshake" (V_uint 0xBEEF) [] in
    let w := sendMessage newMsg ACTIVE_CONNECTION w in
    printDebugMessage "Connected to client." w
  else w.

(** [void moveType(unsigned int type)]: the argument initialises the [uint8_t]
    parameter of [setControlMode]. *)
Definition moveType (type : Z) (w : World) : World :=
  on_pmc (setControlMode (to_uint8 type)) w.

(** [void changeTip(double targetTip)] *)
Definition changeTip (targetTip : R) (w : World) : World :=
  let w := noInterrupts w in
  let w := on_pmc (setTipTarget targetTip) w in
  interrupts w.

(** [void changeTilt(double targetTilt)] *)
Definition changeTilt (targetTilt : R) (w : World) : World :=
  let w := noInterrupts w in
  let w := on_pmc (setTiltTarget targetTilt) w in
  interrupts w.

(** [void changeFocus(double targetFocus)] *)
Definition changeFocus (targetFocus : R) (w : World) : World :=
  let w := noInterrupts w in
  let w := on_pmc (setFocusTarget targetFocus) w in
  interrupts w.

(** [void stop(double lst)] *)
Definition stop (lst : R) (w : World) : World :=
  let w := on_pmc stopNow w in
  let newMsg := addKeyValuePair "Stopped" (V_string "$OK^") [] in
  sendMessage newMsg ACTIVE_CONNECTION w.

Section StatusQuery.

(** [bool PrimaryMirrorControl::getStatus(uint8_t motor)]: only the declaration
    is among the sources, so the body is a parameter. *)
Variable PrimaryMirrorControl_getStatus : PrimaryMirrorControl -> Z -> bool.

(** [void getStatus(double lst)] *)
Definition getStatus (lst : R) (w : World) : World :=
  let newMsg := [] in
  let newMsg := addKeyValuePair "ARunning?"
    (V_bool (PrimaryMirrorControl_getStatus (pPmc w) (PMC.MOTOR_ID_value PMC.MOTOR_A))) newMsg in
  let newMsg := addKeyValuePair "BRunning?"
    (V_bool (PrimaryMirrorControl_getStatus (pPmc w) (PMC.MOTOR_ID_value PMC.MOTOR_B))) newMsg in
  let newMsg := addKeyValuePair "CRunning?"
    (V_bool (PrimaryMirrorControl_getStatus (pPmc w) (PMC.MOTOR_ID_value PMC.MOTOR_C))) newMsg in
  sendMessage newMsg ACTIVE_CONNECTION w.

End StatusQuery.

(** The status the header comment and the specification describe for one axis:
    "Bits are Faulted, Home and Moving". *)
Record StatusBits : Type := mkStatusBits {
  faulted : bool;
  home : bool;
  moving : bool
}.

(** ** main.cpp: [setup] and [loop] *)

(** The last statements of [setup], from [setMoveNotifierFlag] on; the
    statements before them bring up the transport and the terminal. *)
Definition setup (w : World) : World :=
  let w := on_pmc (setMoveNotifierFlag (Some The_moveCompleteFlag)) w in
  let w := on_eeprom resetPositionsInEeprom w in
  let w := on_pmc (loadCurrentPositionsFromEeprom (eeprom w)) w in
  let w := printDebugMessage "Initialization complete" w in
  enableControlInterrupt w.

(** The commands [processClientData] can dispatch to the handlers above
    ("FindHome", "GetPositions" and "SetFanSpeed" are left out). *)
Inductive ClientCommand : Type :=
  | Cmd_Handshake (val : Z)
  | Cmd_MoveType (type : Z)
  | Cmd_SetTip (targetTip : R)
  | Cmd_SetTilt (targetTilt : R)
  | Cmd_SetFocus (targetFocus : R)
  | Cmd_GetStatus (lst : R)
  | Cmd_Stop (lst : R).

Definition dispatch (getStatus_body : PrimaryMirrorControl -> Z -> bool)
    (w : World) (cmd : ClientCommand) : World :=
  match cmd with
  | Cmd_Handshake val => handshake val w
  | Cmd_MoveType type => moveType type w
  | Cmd_SetTip x => changeTip x w
  | Cmd_SetTilt x => changeTilt x w
  | Cmd_SetFocus x => changeFocus x w
  | Cmd_GetStatus lst => getStatus getStatus_body lst w
  | Cmd_Stop lst => stop lst w
  end.

(** The notifier part of [loop]: [if (moveCompleteFlag) { ... }]. *)
Definition loop_notifiers (w : World) : World :=
  if moveCompleteFlag w then
    let newMsg := addKeyValuePair "MoveComplete" (V_uint 0xBEEF) [] in
    let w := sendMessage newMsg ACTIVE_CONNECTION w in
    let w := printDebugMessage "Move Complete." w in
    set_moveCompleteFlag false w
  else w.

(** One iteration of [loop]: the client data received in this iteration is
    dispatched, then the notifier flag is looked at. *)
Definition loop (getStatus_body : PrimaryMirrorControl -> Z -> bool)
    (clientData : list ClientCommand) (w : World) : World :=
  loop_notifiers (fold_left (dispatch getStatus_body) clientData w).

(** ** Command-buffer traffic *)

(** A write into the shadow buffer by one of the three setters. *)
Inductive shadow_write : Type :=
  | W_tip (tgt : R)
  | W_tilt (tgt : R)
  | W_focus (tgt : R).

Definition apply_write (p : PrimaryMirrorControl) (wr : shadow_write)
    : PrimaryMirrorControl :=
  match wr with
  | W_tip tgt => setTipTarget tgt p
  | W_tilt tgt => setTiltTarget tgt p
  | W_focus tgt => setFocusTarget tgt p
  end.

Definition apply_writes (ws : list shadow_write) (p : PrimaryMirrorControl)
    : PrimaryMirrorControl :=
  fold_left apply_write ws p.

(** The value a field ends with: the last one written to it, or the value it
    had before when the sequence does not write it. *)
Fixpoint last_tip (ws : list shadow_write) (before : R) : R :=
  match ws with
  | [] => before
  | W_tip tgt :: ws' => last_tip ws' tgt
  | _ :: ws' => last_tip ws' before
  end.

Fixpoint last_tilt (ws : list shadow_write) (before : R) : R :=
  match ws with
  | [] => before
  | W_tilt tgt :: ws' => last_tilt ws' tgt
  | _ :: ws' => last_tilt ws' before
  end.

Fixpoint last_focus (ws : list shadow_write) (before : R) : R :=
  match ws with
  | [] => before
  | W_focus tgt :: ws' => last_focus ws' tgt
  | _ :: ws' => last_focus ws' before
  end.

Definition writes_tip (ws : list shadow_write) : bool :=
  existsb (fun wr => match wr with W_tip _ => true | _ => false end) ws.
Definition writes_tilt (ws : list shadow_write) : bool :=
  existsb (fun wr => match wr with W_tilt _ => true | _ => false end) ws.
Definition writes_focus (ws : list shadow_write) : bool :=
  existsb (fun wr => match wr with W_focus _ => true | _ => false end) ws.
(** ** Auxiliary definitions for the statements *)

(** The B and C outputs exchanged. *)
Definition swap_BC {T : Type} (steps : T * T * T) : T * T * T :=
  let '(a_steps, b_steps, c_steps) := steps in (a_steps, c_steps, b_steps).

(** The command of the specification's example scenario. *)
Definition example_command : MirrorStates := mkMirrorStates 0.01 0 50.

(** The command used to tell truncation from rounding: level mirror, focus
    0.15 micron, that is 0.8 step. *)
Definition small_focus_command : MirrorStates := mkMirrorStates 0 0 0.15.

(** A controller and a world to evaluate the handlers on: motors at rest, a
    calibrated position (100, 200, 300) in the stored record. *)
Definition sample_controller : PrimaryMirrorControl :=
  mkPMC (mkMultiStepper 0 0 0) (mkMirrorStates 0 0 0) (mkMirrorStates 0 0 0)
    0 false false false false 0 0 0 false false false 0 IDLE INITIALIZE None None.

Definition sample_world : World :=
  mkWorld sample_controller (mkRecord 100 200 300 true) false true false [] [].

(** Some "updated" flag is raised. *)
Definition anyUpdated (p : PrimaryMirrorControl) : bool :=
  focusUpdated p || tipUpdated p || tiltUpdated p.

(** ** main.cpp: the remaining handlers and the whole dispatch *)

(** The messages for which [setup] registers a handler, named by their keys. *)
Inductive Message : Type :=
  | Handshake (val : Z)
  | MoveType (type : Z)
  | FindHome (v : R)
  | SetTip (targetTip : R)
  | SetTilt (targetTilt : R)
  | SetFocus (targetFocus : R)
  | GetStatus (lst : R)
  | GetPositions (lst : R)
  | Stop (lst : R)
  | SetFanSpeed (PWR : Z).

Module Main.
Section MissingBodies.

(** Member functions of the controller that the handlers below call and whose
    bodies are not among the sources: parameters.  They are taken to act on
    the controller object only; nothing is stated here about the interrupt
    mask or the notifier flag, which a real body can reach. *)
Variable PrimaryMirrorControl_goHome :
  R -> PrimaryMirrorControl -> PrimaryMirrorControl.
Variable PrimaryMirrorControl_setFanSpeed :
  Z -> PrimaryMirrorControl -> PrimaryMirrorControl.
Variable PrimaryMirrorControl_getPosition : PrimaryMirrorControl -> Z -> R.
Variable PrimaryMirrorControl_getStatus : PrimaryMirrorControl -> Z -> bool.

(** [void home(double v)] *)
Definition home (v : R) (w : World) : World :=
  let w := on_pmc (PrimaryMirrorControl_goHome v) w in
  let newMsg := addKeyValuePair "Finding Home" (V_string "$OK^") [] in
  sendMessage newMsg ACTIVE_CONNECTION w.

(** [void fanSpeed(unsigned int PWR)] *)
Definition fanSpeed (PWR : Z) (w : World) : World :=
  let w := noInterrupts w in
  let w := on_pmc (PrimaryMirrorControl_setFanSpeed PWR) w in
  interrupts w.

(** [void getPositions(double lst)] *)
Definition getPositions (lst : R) (w : World) : World :=
  let newMsg := [] in
  let newMsg := addKeyValuePair "APosition"
    (V_double (PrimaryMirrorControl_getPosition (pPmc w) (PMC.MOTOR_ID_value PMC.MOTOR_A))) newMsg in
  let newMsg := addKeyValuePair "BPosition"
    (V_double (PrimaryMirrorControl_getPosition (pPmc w) (PMC.MOTOR_ID_value PMC.MOTOR_B))) newMsg in
  let newMsg := addKeyValuePair "CPosition"
    (V_double (PrimaryMirrorControl_getPosition (pPmc w) (PMC.MOTOR_ID_value PMC.MOTOR_C))) newMsg in
  sendMessage newMsg ACTIVE_CONNECTION w.

(** The handler [setup] registers for each key. *)
Definition handler (w : World) (m : Message) : World :=
  match m with
  | Handshake val => handshake val w
  | MoveType type => moveType type w
  | FindHome v => home v w
  | SetTip targetTip => changeTip targetTip w
  | SetTilt targetTilt => changeTilt targetTilt w
  | SetFocus targetFocus => changeFocus targetFocus w
  | GetStatus lst => getStatus PrimaryMirrorControl_getStatus lst w
  | GetPositions lst => getPositions lst w
  | Stop lst => stop lst w
  | SetFanSpeed PWR => fanSpeed PWR w
  end.

(** [processClientData]: the messages received are handled in order. *)
Definition processClientData (msgs : list Message) (w : World) : World :=
  fold_left handler msgs w.

End MissingBodies.
End Main.

(** The first key of the message a handler sends, if it sends one. *)
Definition reply_key (m : Message) : list string :=
  match m with
  | Handshake val => if (val =? 0xDEAD)%Z then ["Handshake"%string] else []
  | FindHome _ => ["Finding Home"%string]
  | GetStatus _ => ["ARunning?"%string]
  | GetPositions _ => ["APosition"%string]
  | Stop _ => ["Stopped"%string]
  | MoveType _ | SetTip _ | SetTilt _ | SetFocus _ | SetFanSpeed _ => []
  end.

Definition first_key (sent : CommsMessage * Destination) : string :=
  match fst sent with
  | [] => EmptyString
  | (key, _) :: _ => key
  end.

(** An [int32_t] conversion is defined for this product. *)
Definition fits_int32 (x : R) : Prop := -2147483649 < x < 2147483648.

(** ** [getMotorPosnCommands] in binary64

    The same function with [double] as IEEE 754 binary64: every constant is
    the nearest binary64 value, every operation rounds, and the cast works on
    the value the operations produced.  [std::tan] and [std::cos] belong to
    the C library, not to the sources: they are parameters. *)

(** The real number a finite binary64 value stands for. *)
Definition float_value (f : spec_float) : R :=
  match f with
  | S754_finite s m e => (if s then -1 else 1) * (IZR (Z.pos m) * powerRZ 2 e)
  | _ => 0
  end.

(** [z] is [x] with its fractional part discarded. *)
Definition truncation_of (x : R) (z : Z) : Prop :=
  Rabs (IZR z) <= Rabs x < Rabs (IZR z) + 1 /\ 0 <= IZR z * x.

(** What the language promises for [(int32_t)p]: [p] is a number, [z] is its
    truncation toward zero, and [z] is an [int32_t]; otherwise the conversion
    is undefined. *)
Definition converts_to_int32 (p : float) (z : Z) : Prop :=
  match Prim2SF p with
  | S754_nan | S754_infinity _ => False
  | f => truncation_of (float_value f) z /\ (INT32_MIN <= z <= INT32_MAX)%Z
  end.

Module Binary64.

(** The integer part of a binary64 value, from its sign, mantissa and
    exponent: the mantissa shifted by the exponent, bits shifted out being
    lost. *)
Definition integer_part (f : spec_float) : option Z :=
  match f with
  | S754_zero _ => Some 0%Z
  | S754_finite s m e =>
      let magnitude := Z.shiftl (Z.pos m) e in
      Some (if s then (- magnitude)%Z else magnitude)
  | S754_infinity _ | S754_nan => None
  end.

(** [(int32_t)x] *)
Definition cast_int32 (x : float) : option Z :=
  z <- integer_part (Prim2SF x) ;;
  if ((INT32_MIN <=? z) && (z <=? INT32_MAX))%Z then Some z else None.

Definition MICROSTEP_DIVIDER : float := 16%float.
Definition MICROSTEP_RATIO : float := (1 / MICROSTEP_DIVIDER)%float.
Definition MICRON_PER_STEP : float := (3 * MICROSTEP_RATIO)%float.
Definition STEPS_PER_MICRON : float := (1 / MICRON_PER_STEP)%float.

(** [const double c[3] = MIRROR_MATH_COEFFS]: 281.3, -140.6 and 243.6 as the
    nearest binary64 values. *)
Definition c (i : nat) : float :=
  nth i [0x1.194cccccccccdp+8; -0x1.1933333333333p+7; 0x1.e733333333333p+7]%float
    0%float.

Record MirrorStates : Type := mkMirrorStates {
  TIP_POS_ENG : float;
  TILT_POS_ENG : float;
  FOCUS_POS_ENG : float
}.

Section Libm.

Variable std_tan : float -> float.
Variable std_cos : float -> float.

Definition a_distance (this : MirrorStates) : float :=
  let tanAlpha := std_tan (TIP_POS_ENG this) in
  let gamma := FOCUS_POS_ENG this in
  (gamma + (c 0 * tanAlpha))%float.

Definition b_distance (this : MirrorStates) : float :=
  let tanAlpha := std_tan (TIP_POS_ENG this) in
  let cosAlpha := std_cos (TIP_POS_ENG this) in
  let tanBeta := std_tan (TILT_POS_ENG this) in
  let gamma := FOCUS_POS_ENG this in
  (gamma + (c 1 * tanAlpha + c 2 * tanBeta / cosAlpha))%float.

Definition c_distance (this : MirrorStates) : float :=
  let tanAlpha := std_tan (TIP_POS_ENG this) in
  let cosAlpha := std_cos (TIP_POS_ENG this) in
  let tanBeta := std_tan (TILT_POS_ENG this) in
  let gamma := FOCUS_POS_ENG this in
  (gamma + (c 1 * tanAlpha - c 2 * tanBeta / cosAlpha))%float.

(** [getMotorPosnCommands<int32_t>] *)
Definition getMotorPosnCommands (this : MirrorStates) : option (Z * Z * Z) :=
  a_steps <- cast_int32 (a_distance this * STEPS_PER_MICRON)%float ;;
  b_steps <- cast_int32 (b_distance this * STEPS_PER_MICRON)%float ;;
  c_steps <- cast_int32 (c_distance this * STEPS_PER_MICRON)%float ;;
  Some (a_steps, b_steps, c_steps).

End Libm.

End Binary64.

(** ** Command-buffer traffic with ticks in between *)

(** What happens to the two buffers, in order: a setter call from the
    foreground or a control tick's [checkForNewCommand]. *)
Inductive buffer_event : Type :=
  | E_write (wr : shadow_write)
  | E_tick.

Definition buffer_step (p : PrimaryMirrorControl) (ev : buffer_event)
    : PrimaryMirrorControl :=
  match ev with
  | E_write wr => apply_write p wr
  | E_tick => snd (checkForNewCommand p)
  end.

Definition run_events (evs : list buffer_event) (p : PrimaryMirrorControl)
    : PrimaryMirrorControl :=
  fold_left buffer_step evs p.

Definition writes_of (evs : list buffer_event) : list shadow_write :=
  flat_map (fun ev => match ev with E_write wr => [wr] | E_tick => [] end) evs.

(** The buffers agree unless a write waits to be promoted. *)
Definition buffers_consistent (p : PrimaryMirrorControl) : Prop :=
  anyUpdated p = false -> CommandStates_Eng p = ShadowCommandStates_Eng p.

(** The controller after a first command (tip 1, tilt 2, focus 3) has been
    written and promoted. *)
Definition controller_after_first_command : PrimaryMirrorControl :=
  run_events [E_write (W_tip 1); E_write (W_tilt 2); E_write (W_focus 3); E_tick]
    sample_controller.

(** ** Lemmas on the conversions *)

Lemma STEPS_PER_MICRON_val : STEPS_PER_MICRON = 16 / 3.
Proof.
  unfold STEPS_PER_MICRON, MICRON_PER_STEP, MICROSTEP_RATIO, MICROSTEP_DIVIDER.
  field.
Qed.

Lemma Int_part_bounds (x : R) : IZR (Int_part x) <= x < IZR (Int_part x) + 1.
Proof.
  destruct (base_Int_part x) as [H1 H2]. lra.
Qed.

Lemma Int_part_unique (x : R) (z : Z) :
  IZR z <= x < IZR z + 1 -> Int_part x = z.
Proof.
  intros [H1 H2]. symmetry. apply Int_part_spec. lra.
Qed.

Lemma Rtrunc_nonneg (x : R) (z : Z) :
  0 <= x -> IZR z <= x < IZR z + 1 -> Rtrunc x = z.
Proof.
  intros Hx Hz. unfold Rtrunc.
  destruct (Rle_dec 0 x) as [_ | Hn]; [ | contradiction ].
  now apply Int_part_unique.
Qed.

Lemma Rround_nonneg (x : R) (z : Z) :
  0 <= x -> IZR z - / 2 <= x < IZR z + / 2 -> Rround x = z.
Proof.
  intros Hx Hz. unfold Rround.
  destruct (Rle_dec 0 x) as [_ | Hn]; [ | contradiction ].
  apply Int_part_unique. lra.
Qed.

Lemma Rtrunc_neg (x : R) (z : Z) :
  x < 0 -> IZR z - 1 < x <= IZR z -> Rtrunc x = z.
Proof.
  intros Hx Hz. unfold Rtrunc.
  destruct (Rle_dec 0 x) as [Hp | _]; [ lra | ].
  rewrite (Int_part_unique (- x) (- z)).
  - lia.
  - rewrite opp_IZR. lra.
Qed.

(** The cast discards the fraction: the result lies between zero and the
    argument, less than one away from it. *)
Lemma Rtrunc_toward_zero (x : R) :
  (0 <= x -> 0 <= IZR (Rtrunc x) <= x /\ x < IZR (Rtrunc x) + 1) /\
  (x < 0 -> x <= IZR (Rtrunc x) <= 0 /\ IZR (Rtrunc x) - 1 < x).
Proof.
  unfold Rtrunc. split; intros Hx.
  - destruct (Rle_dec 0 x) as [_ | Hn]; [ | contradiction ].
    pose proof (Int_part_bounds x) as [H1 H2].
    assert (0 <= Int_part x)%Z.
    { apply Z.lt_succ_r. apply lt_IZR. rewrite succ_IZR. lra. }
    assert (0 <= IZR (Int_part x)) by now apply IZR_le.
    lra.
  - destruct (Rle_dec 0 x) as [Hp | _]; [ lra | ].
    pose proof (Int_part_bounds (- x)) as [H1 H2].
    rewrite opp_IZR.
    assert (0 <= Int_part (- x))%Z.
    { apply Z.lt_succ_r. apply lt_IZR. rewrite succ_IZR. lra. }
    assert (0 <= IZR (Int_part (- x))) by now apply IZR_le.
    lra.
Qed.

Lemma Rtrunc_int32 (x : R) :
  -2147483649 < x < 2147483648 ->
  (INT32_MIN <= Rtrunc x <= INT32_MAX)%Z.
Proof.
  intros [Hlo Hhi]. unfold INT32_MIN, INT32_MAX.
  destruct (Rtrunc_toward_zero x) as [Hpos Hneg].
  destruct (Rle_dec 0 x) as [Hx | Hx].
  - destruct (Hpos Hx) as [[H0 H1] H2]. split.
    + apply le_IZR. lra.
    + apply Z.lt_succ_r. apply lt_IZR. simpl. lra.
  - assert (Hx' : x < 0) by lra.
    destruct (Hneg Hx') as [[H0 H1] H2]. split.
    + apply Z.lt_pred_le. apply lt_IZR. simpl. lra.
    + apply le_IZR. lra.
Qed.

Lemma static_cast_int32_in_range (x : R) :
  -2147483649 < x < 2147483648 ->
  static_cast (T := Z) x = Some (Rtrunc x).
Proof.
  intros Hx. apply Rtrunc_int32 in Hx. destruct Hx as [Hlo Hhi].
  unfold static_cast, StepType_int32. cbv zeta.
  apply Z.leb_le in Hlo. apply Z.leb_le in Hhi.
  now rewrite Hlo, Hhi.
Qed.

(** The code's three distances are the specification's. *)
Lemma distances_as_specified (this : MirrorStates) :
  a_distance this =
    spec_distA (c 0) (c 1) (c 2) (TIP_POS_ENG this) (TILT_POS_ENG this) (FOCUS_POS_ENG this) /\
  b_distance this =
    spec_distB (c 0) (c 1) (c 2) (TIP_POS_ENG this) (TILT_POS_ENG this) (FOCUS_POS_ENG this) /\
  c_distance this =
    spec_distC (c 0) (c 1) (c 2) (TIP_POS_ENG this) (TILT_POS_ENG this) (FOCUS_POS_ENG this).
Proof.
  unfold a_distance, b_distance, c_distance, spec_distA, spec_distB, spec_distC.
  cbv zeta. repeat split; ring.
Qed.

Lemma coefficients : c 0 = 281.3 /\ c 1 = -140.6 /\ c 2 = 243.6.
Proof. repeat split; reflexivity. Qed.

(** ** Kinematics: evaluation at particular commands *)

Lemma distances_level (focus : R) :
  a_distance (mkMirrorStates 0 0 focus) = focus /\
  b_distance (mkMirrorStates 0 0 focus) = focus /\
  c_distance (mkMirrorStates 0 0 focus) = focus.
Proof.
  unfold a_distance, b_distance, c_distance.
  cbn [TIP_POS_ENG TILT_POS_ENG FOCUS_POS_ENG].
  rewrite tan_0, cos_0. unfold Rdiv. rewrite Rinv_1. repeat split; ring.
Qed.

Lemma INR_fact_value (n : nat) (z : Z) :
  Z.of_nat (fact n) = z -> INR (fact n) = IZR z.
Proof. intros <-. apply INR_IZR_INZ. Qed.

Lemma sin_lb_001 : 0.0099998 < sin_lb 0.01.
Proof.
  unfold sin_lb, sin_approx, sum_f_R0, sin_term.
  simpl pow. simpl Nat.add. simpl Nat.mul.
  rewrite (INR_fact_value 1 1), (INR_fact_value 3 6),
    (INR_fact_value 5 120), (INR_fact_value 7 5040) by (vm_compute; reflexivity).
  lra.
Qed.

Lemma tan_001_bounds : 0.0099998 < tan 0.01 < 0.0100011.
Proof.
  pose proof PI2_3_2 as HPI.
  assert (Hx0 : 0 < 0.01) by lra.
  pose proof (sin_lt_x 0.01 Hx0) as Hsin_ub.
  assert (Hsin_lb : 0.0099998 < sin 0.01).
  { destruct (SIN 0.01) as [Hlb _]; [ lra | lra | ].
    pose proof sin_lb_001. lra. }
  assert (Hcos_pos : 0 < cos 0.01) by (apply cos_gt_0; lra).
  destruct (COS_bound 0.01) as [_ Hcos_le].
  pose proof (sin2_cos2 0.01) as Hsq. unfold Rsqr in Hsq.
  assert (Hcos_lb : 0.9999 < cos 0.01) by nra.
  unfold tan, Rdiv.
  assert (Hinv_lo : 1 <= / cos 0.01).
  { rewrite <- Rinv_1. apply Rinv_le_contravar; lra. }
  assert (Hinv_hi : / cos 0.01 < / 0.9999).
  { apply Rinv_lt_contravar; nra. }
  assert (Hinv_val : / 0.9999 < 1.000101) by (apply (Rmult_lt_reg_l 0.9999); [ lra | rewrite Rinv_r; lra ]).
  split; nra.
Qed.

Lemma example_distances :
  52.8129 < a_distance example_command < 52.8134 /\
  48.5938 < b_distance example_command < 48.5941 /\
  c_distance example_command = b_distance example_command.
Proof.
  pose proof tan_001_bounds as [Hlo Hhi].
  destruct coefficients as (Hc0 & Hc1 & Hc2).
  unfold a_distance, b_distance, c_distance, example_command.
  cbn [TIP_POS_ENG TILT_POS_ENG FOCUS_POS_ENG].
  rewrite Hc0, Hc1, Hc2, tan_0.
  unfold Rdiv. rewrite !Rmult_0_r, !Rmult_0_l.
  repeat split; lra.
Qed.

Lemma example_steps :
  getMotorPosnCommands (T := Z) example_command = Some (281, 259, 259)%Z.
Proof.
  destruct example_distances as ([Ha1 Ha2] & [Hb1 Hb2] & Hc).
  unfold getMotorPosnCommands. rewrite Hc, STEPS_PER_MICRON_val.
  rewrite !static_cast_int32_in_range by lra.
  cbn [bind].
  rewrite (Rtrunc_nonneg (a_distance example_command * (16 / 3)) 281) by lra.
  rewrite (Rtrunc_nonneg (b_distance example_command * (16 / 3)) 259) by lra.
  reflexivity.
Qed.

Lemma small_focus_steps :
  getMotorPosnCommands (T := Z) small_focus_command = Some (0, 0, 0)%Z.
Proof.
  destruct (distances_level 0.15) as (Ha & Hb & Hc).
  unfold getMotorPosnCommands, small_focus_command.
  rewrite Ha, Hb, Hc, STEPS_PER_MICRON_val.
  rewrite !static_cast_int32_in_range by lra.
  cbn [bind].
  rewrite (Rtrunc_nonneg (0.15 * (16 / 3)) 0) by lra.
  reflexivity.
Qed.

Lemma small_focus_rounded :
  spec_steps (spec_distA 281.3 (-140.6) 243.6 0 0 0.15) = 1%Z.
Proof.
  unfold spec_steps, spec_distA. rewrite tan_0, STEPS_PER_MICRON_val.
  apply Rround_nonneg; lra.
Qed.

(** ** C1: kinematic formula and integer conversion *)

(** C1, as stated, fails: for tip = 0, tilt = 0, focus = 0.15 the formula gives
    0.8 step on each actuator; rounding to the nearest step would return 1,
    [getMotorPosnCommands] returns 0. *)
Lemma getMotorPosnCommands_not_rounded :
  getMotorPosnCommands (T := Z) (mkMirrorStates 0 0 0.15) <>
  Some (spec_steps (spec_distA 281.3 (-140.6) 243.6 0 0 0.15),
        spec_steps (spec_distB 281.3 (-140.6) 243.6 0 0 0.15),
        spec_steps (spec_distC 281.3 (-140.6) 243.6 0 0 0.15)).
Proof.
  fold small_focus_command. rewrite small_focus_steps, small_focus_rounded.
  intros H. inversion H.
Qed.

(** *** The cast on binary64 values *)

Lemma pow2_IZR (k : positive) : IZR (2 ^ Z.pos k) = 2 ^ Pos.to_nat k.
Proof. now rewrite pow_IZR, positive_nat_Z. Qed.

Lemma pow2_pos (k : positive) : (0 < 2 ^ Z.pos k)%Z.
Proof. apply Z.pow_pos_nonneg; lia. Qed.

(** Shifting the mantissa by the exponent gives the integer part of
    [m * 2^e]. *)
Lemma shiftl_integer_part (m : positive) (e : Z) :
  (0 <= Z.shiftl (Z.pos m) e)%Z /\
  IZR (Z.shiftl (Z.pos m) e) <= IZR (Z.pos m) * powerRZ 2 e
    < IZR (Z.shiftl (Z.pos m) e) + 1.
Proof.
  split; [ apply Z.shiftl_nonneg; lia | ].
  destruct e as [ | k | k ].
  - rewrite Z.shiftl_0_r. cbn [powerRZ]. lra.
  - rewrite Z.shiftl_mul_pow2 by lia.
    rewrite mult_IZR, pow2_IZR. cbn [powerRZ]. lra.
  - rewrite Z.shiftl_div_pow2 by lia.
    change (- Z.neg k)%Z with (Z.pos k). cbn [powerRZ].
    rewrite <- pow2_IZR.
    pose proof (pow2_pos k) as HD.
    pose proof (Z.div_mod (Z.pos m) (2 ^ Z.pos k)) as Hdm.
    pose proof (Z.mod_pos_bound (Z.pos m) (2 ^ Z.pos k) HD) as [Hr0 Hr1].
    set (D := (2 ^ Z.pos k)%Z) in *. set (q := (Z.pos m / D)%Z) in *.
    assert (Hlo : IZR D * IZR q <= IZR (Z.pos m))
      by (rewrite <- mult_IZR; apply IZR_le; lia).
    assert (Hhi : IZR (Z.pos m) < IZR D * IZR q + IZR D)
      by (rewrite <- mult_IZR, <- plus_IZR; apply IZR_lt; lia).
    apply IZR_lt in HD.
    assert (Hinv : IZR D * / IZR D = 1) by (apply Rinv_r; lra).
    assert (Hxpos : 0 < / IZR D) by (apply Rinv_0_lt_compat; lra).
    split.
    + apply (Rmult_le_reg_r (IZR D)); [ lra | ].
      rewrite Rmult_assoc, (Rmult_comm (/ IZR D)), Hinv. lra.
    + apply (Rmult_lt_reg_r (IZR D)); [ lra | ].
      rewrite Rmult_assoc, (Rmult_comm (/ IZR D)), Hinv. lra.
Qed.

Lemma integer_part_truncates (f : spec_float) (z : Z) :
  Binary64.integer_part f = Some z -> truncation_of (float_value f) z.
Proof.
  unfold truncation_of. destruct f as [ s | s | | s m e ]; cbn; try discriminate.
  - intros H. injection H as <-. rewrite Rabs_R0, Rmult_0_l. lra.
  - intros H. injection H as <-.
    destruct (shiftl_integer_part m e) as [Hv0 [Hlo Hhi]].
    apply IZR_le in Hv0.
    set (v := Z.shiftl (Z.pos m) e) in *.
    set (x := IZR (Z.pos m) * powerRZ 2 e) in *.
    destruct s; rewrite ?opp_IZR; unfold Rabs;
      repeat match goal with
             | |- context [Rcase_abs ?y] => destruct (Rcase_abs y)
             end; split; try nra; lra.
Qed.

Lemma truncation_of_unique (x : R) (z z' : Z) :
  truncation_of x z -> truncation_of x z' -> z = z'.
Proof.
  unfold truncation_of. intros [[H1 H2] H3] [[H1' H2'] H3'].
  rewrite <- !abs_IZR in *.
  assert (Habs : Z.abs z = Z.abs z').
  { assert (Z.abs z < Z.abs z' + 1)%Z by (apply lt_IZR; rewrite plus_IZR; lra).
    assert (Z.abs z' < Z.abs z + 1)%Z by (apply lt_IZR; rewrite plus_IZR; lra).
    lia. }
  destruct (Z.eq_dec z z') as [ | Hne ]; [ assumption | exfalso ].
  assert (Hopp : z' = (- z)%Z) by lia.
  assert (Hnz : z <> 0%Z) by lia.
  subst z'. rewrite opp_IZR in H3'.
  assert (Hzx : IZR z * x = 0) by lra.
  assert (Hz : IZR z <> 0) by (intros E; apply eq_IZR in E; contradiction).
  assert (Hx : x = 0).
  { destruct (Rmult_integral _ _ Hzx); [ contradiction | assumption ]. }
  subst x. rewrite Rabs_R0 in H1.
  assert (Z.abs z <= 0)%Z by (apply le_IZR; exact H1). lia.
Qed.

(** The cast computed on the bits is the conversion the language defines. *)
Lemma cast_int32_spec (p : float) (z : Z) :
  Binary64.cast_int32 p = Some z <-> converts_to_int32 p z.
Proof.
  unfold Binary64.cast_int32, converts_to_int32.
  destruct (Binary64.integer_part (Prim2SF p)) as [z0 | ] eqn:Hip; cbn [bind].
  - pose proof (integer_part_truncates _ _ Hip) as Htr.
    assert (Hgoal :
      (if ((INT32_MIN <=? z0) && (z0 <=? INT32_MAX))%Z then Some z0 else None) = Some z <->
      truncation_of (float_value (Prim2SF p)) z /\ (INT32_MIN <= z <= INT32_MAX)%Z).
    { split.
      - destruct ((INT32_MIN <=? z0) && (z0 <=? INT32_MAX))%Z eqn:Hr; [ | discriminate ].
        intros H. injection H as <-.
        apply andb_prop in Hr. destruct Hr as [Hlo Hhi].
        apply Z.leb_le in Hlo. apply Z.leb_le in Hhi. split; [ exact Htr | lia ].
      - intros [Htr' [Hlo Hhi]].
        rewrite (truncation_of_unique _ _ _ Htr Htr').
        apply Z.leb_le in Hlo. apply Z.leb_le in Hhi. now rewrite Hlo, Hhi. }
    destruct (Prim2SF p); cbn in Hip; try discriminate; exact Hgoal.
  - destruct (Prim2SF p); cbn in Hip; try discriminate;
      split; [ discriminate | contradiction | discriminate | contradiction ].
Qed.

(** The cast at work: fractions are dropped on both sides of zero, the largest
    and smallest [int32_t] are reached, and one step beyond, infinities and
    NaN have no conversion. *)
Lemma cast_int32_examples :
  Binary64.cast_int32 0x1.999999999999ap-1 = Some 0%Z /\
  Binary64.cast_int32 (-0x1.8p+0) = Some (-1)%Z /\
  Binary64.cast_int32 0x1.fffffffffcp+30 = Some INT32_MAX /\
  Binary64.cast_int32 (-0x1.00000000fp+31) = Some INT32_MIN /\
  Binary64.cast_int32 0x1p+31 = None /\
  Binary64.cast_int32 (-0x1.00000002p+31) = None /\
  Binary64.cast_int32 infinity = None /\
  Binary64.cast_int32 nan = None.
Proof. vm_compute. repeat split. Qed.

(** The binary64 constants are the decimal ones of the header, each within
    half a unit in the last place. *)
Lemma binary64_constants :
  Rabs (float_value (Prim2SF (Binary64.c 0)) - 281.3) <= / 2 ^ 45 /\
  Rabs (float_value (Prim2SF (Binary64.c 1)) - -140.6) <= / 2 ^ 46 /\
  Rabs (float_value (Prim2SF (Binary64.c 2)) - 243.6) <= / 2 ^ 46 /\
  Rabs (float_value (Prim2SF Binary64.STEPS_PER_MICRON) - 16 / 3) <= / 2 ^ 51.
Proof.
  repeat split; apply Rabs_le;
    match goal with
    | |- context [Prim2SF ?f] =>
        let v := eval vm_compute in (Prim2SF f) in
        change (Prim2SF f) with v
    end; cbn [float_value powerRZ]; simpl pow; lra.
Qed.

(** In binary64 too, a level command with focus 0.15 gives 0 steps, not 1,
    as soon as the C library has tan 0 = 0 and cos 0 = 1. *)
Lemma binary64_small_focus_steps (std_tan std_cos : float -> float) :
  std_tan 0%float = 0%float -> std_cos 0%float = 1%float ->
  Binary64.getMotorPosnCommands std_tan std_cos
    (Binary64.mkMirrorStates 0 0 0x1.3333333333333p-3) = Some (0, 0, 0)%Z.
Proof.
  intros Htan Hcos.
  unfold Binary64.getMotorPosnCommands, Binary64.a_distance, Binary64.b_distance,
    Binary64.c_distance.
  cbn [Binary64.TIP_POS_ENG Binary64.TILT_POS_ENG Binary64.FOCUS_POS_ENG].
  rewrite Htan, Hcos. vm_compute. reflexivity.
Qed.

(** C1 (amended): for every AxisTarget{tip, tilt, focus}, and whatever the C
    library returns for tan and cos, [getMotorPosnCommands] computes in
    binary64 distA = focus + (c0*tan(tip)), distB = focus + (c1*tan(tip) +
    c2*tan(tilt)/cos(tip)), distC = focus + (c1*tan(tip) -
    c2*tan(tilt)/cos(tip)) with (c0, c1, c2) = (281.3, -140.6, 243.6), and
    returns (a, b, c) exactly when each of them is the cast to [int32_t] of the
    computed product [dist * STEPS_PER_MICRON]: the product is a number, the
    step count is that product truncated toward zero (between zero and the
    product, less than one away from it), not rounded to the nearest step, and
    it fits an [int32_t]; otherwise the result is undefined. *)
Theorem getMotorPosnCommands_casts_products
    (std_tan std_cos : float -> float) (tip tilt focus : float)
    (a_steps b_steps c_steps : Z) :
  Binary64.getMotorPosnCommands std_tan std_cos
    (Binary64.mkMirrorStates tip tilt focus) = Some (a_steps, b_steps, c_steps)
  <->
  converts_to_int32
    ((focus + Binary64.c 0 * std_tan tip) * Binary64.STEPS_PER_MICRON)%float
    a_steps /\
  converts_to_int32
    ((focus + (Binary64.c 1 * std_tan tip
               + Binary64.c 2 * std_tan tilt / std_cos tip))
     * Binary64.STEPS_PER_MICRON)%float
    b_steps /\
  converts_to_int32
    ((focus + (Binary64.c 1 * std_tan tip
               - Binary64.c 2 * std_tan tilt / std_cos tip))
     * Binary64.STEPS_PER_MICRON)%float
    c_steps.
Proof.
  rewrite <- !cast_int32_spec.
  unfold Binary64.getMotorPosnCommands, Binary64.a_distance, Binary64.b_distance,
    Binary64.c_distance.
  cbn [Binary64.TIP_POS_ENG Binary64.TILT_POS_ENG Binary64.FOCUS_POS_ENG].
  destruct (Binary64.cast_int32 ((focus + Binary64.c 0 * std_tan tip)
                                 * Binary64.STEPS_PER_MICRON)) as [a | ];
    destruct (Binary64.cast_int32
                ((focus + (Binary64.c 1 * std_tan tip
                           + Binary64.c 2 * std_tan tilt / std_cos tip))
                 * Binary64.STEPS_PER_MICRON)) as [b | ];
    destruct (Binary64.cast_int32
                ((focus + (Binary64.c 1 * std_tan tip
                           - Binary64.c 2 * std_tan tilt / std_cos tip))
                 * Binary64.STEPS_PER_MICRON)) as [c0 | ];
    cbn [bind]; split; try discriminate;
    try (intros H; injection H as <- <- <-; now repeat split);
    try (intros (Ha & Hb & Hc); congruence).
Qed.

(** ** C5: the example scenario *)

(** C5, as stated, fails: on the example command the A step count is not 282. *)
Lemma example_A_steps_not_282 :
  ~ (exists b_steps c_steps : Z,
       getMotorPosnCommands (T := Z) (mkMirrorStates 0.01 0 50) =
       Some (282%Z, b_steps, c_steps)).
Proof.
  fold example_command. rewrite example_steps.
  intros (b_steps & c_steps & H). inversion H.
Qed.

(** C5 (amended): with coefficients (281.3, -140.6, 243.6) and
    STEPS_PER_MICRON = 16/3, the input tip = 0.01 rad, tilt = 0, focus = 50
    microns yields distA = 50 + 281.3*tan(0.01), which lies between 52.81 and
    52.82, and an A step count of 281: the product, about 281.67, is truncated;
    rounded to the nearest step it would be 282.  B and C both get 259. *)
Theorem example_scenario :
  MIRROR_MATH_COEFFS = [281.3; -140.6; 243.6] /\
  STEPS_PER_MICRON = 16 / 3 /\
  a_distance (mkMirrorStates 0.01 0 50) = 50 + 281.3 * tan 0.01 /\
  52.81 < a_distance (mkMirrorStates 0.01 0 50) < 52.82 /\
  281.6 < a_distance (mkMirrorStates 0.01 0 50) * STEPS_PER_MICRON < 281.7 /\
  Rround (a_distance (mkMirrorStates 0.01 0 50) * STEPS_PER_MICRON) = 282%Z /\
  getMotorPosnCommands (T := Z) (mkMirrorStates 0.01 0 50) = Some (281, 259, 259)%Z.
Proof.
  fold example_command.
  destruct example_distances as ([Ha1 Ha2] & _).
  pose proof STEPS_PER_MICRON_val as HS.
  split; [ reflexivity | ].
  split; [ exact HS | ].
  split; [ reflexivity | ].
  split; [ lra | ].
  split; [ rewrite HS; lra | ].
  split; [ | exact example_steps ].
  rewrite HS. apply Rround_nonneg; lra.
Qed.

(** ** C8: symmetry of the tilt input *)

Lemma distances_tilt_negated (tip tilt focus : R) :
  a_distance (mkMirrorStates tip (- tilt) focus) = a_distance (mkMirrorStates tip tilt focus) /\
  b_distance (mkMirrorStates tip (- tilt) focus) = c_distance (mkMirrorStates tip tilt focus) /\
  c_distance (mkMirrorStates tip (- tilt) focus) = b_distance (mkMirrorStates tip tilt focus).
Proof.
  unfold a_distance, b_distance, c_distance.
  cbn [TIP_POS_ENG TILT_POS_ENG FOCUS_POS_ENG].
  rewrite tan_neg. unfold Rdiv. repeat split; ring.
Qed.

Lemma distances_tilt_zero (tip focus : R) :
  b_distance (mkMirrorStates tip 0 focus) = c_distance (mkMirrorStates tip 0 focus).
Proof.
  unfold b_distance, c_distance.
  cbn [TIP_POS_ENG TILT_POS_ENG FOCUS_POS_ENG].
  rewrite tan_0. unfold Rdiv. ring.
Qed.

(** C8: in exact real arithmetic, for every tip and focus (and every step type
    [T]), negating the tilt input of [getMotorPosnCommands] exchanges the B and
    C step outputs and leaves the A step output unchanged; with tilt = 0 the B
    and C step counts are equal. *)
Theorem negating_tilt_swaps_B_and_C (T : Type) (cast : StepType T)
    (tip tilt focus : R) :
  getMotorPosnCommands (mkMirrorStates tip (- tilt) focus) =
    option_map swap_BC (getMotorPosnCommands (mkMirrorStates tip tilt focus)) /\
  match getMotorPosnCommands (T := T) (mkMirrorStates tip 0 focus) with
  | Some (_, b_steps, c_steps) => b_steps = c_steps
  | None => True
  end.
Proof.
  split.
  - destruct (distances_tilt_negated tip tilt focus) as (Ha & Hb & Hc).
    unfold getMotorPosnCommands. rewrite Ha, Hb, Hc.
    destruct (static_cast (a_distance _ * _)) as [a_steps | ]; cbn; [ | reflexivity ].
    destruct (static_cast (b_distance _ * _)) as [b_steps | ];
      destruct (static_cast (c_distance _ * _)) as [c_steps | ]; reflexivity.
  - unfold getMotorPosnCommands. rewrite (distances_tilt_zero tip focus).
    destruct (static_cast (a_distance _ * _)) as [a_steps | ]; cbn; [ | exact I ].
    destruct (static_cast (c_distance _ * _)) as [c_steps | ]; cbn; [ reflexivity | exact I ].
Qed.

(** ** C3: the command buffer *)

(** The statements of [operator=] under every arrival of interrupt requests:
    [*this] ends as the copy of one state of [other], the one in place when
    [noInterrupts()] is executed. *)
Lemma operator_assign_atomic (reqs : list (option isr)) (m : copy_machine) :
  cm_this (run_stmts operator_assign_body reqs m) =
  operator_assign (cm_this m) (cm_other (raise_irq (hd None reqs) m)).
Proof.
  destruct m as [t o e].
  destruct reqs as [ | r1 [ | r2 [ | r3 [ | r4 [ | r5 rest ] ] ] ] ];
    destruct e;
    repeat match goal with r : option isr |- _ => destruct r end;
    reflexivity.
Qed.

(** Without the mask the same three copies can be torn by a request that
    arrives between them. *)
Lemma unmasked_copy_can_tear :
  cm_this (run_stmts [S_copy_TIP; S_copy_TILT; S_copy_FOCUS]
             [None; Some (fun _ => mkMirrorStates 1 1 1); None]
             (mkCopyMachine (mkMirrorStates 0 0 0) (mkMirrorStates 2 2 2) true))
  = mkMirrorStates 2 1 1.
Proof. reflexivity. Qed.

Lemma apply_writes_shadow (ws : list shadow_write) (p : PrimaryMirrorControl) :
  ShadowCommandStates_Eng (apply_writes ws p) =
  mkMirrorStates
    (last_tip ws (TIP_POS_ENG (ShadowCommandStates_Eng p)))
    (last_tilt ws (TILT_POS_ENG (ShadowCommandStates_Eng p)))
    (last_focus ws (FOCUS_POS_ENG (ShadowCommandStates_Eng p))).
Proof.
  unfold apply_writes. revert p.
  induction ws as [ | wr ws IH ]; intros p.
  - cbn. now destruct (ShadowCommandStates_Eng p).
  - cbn [fold_left]. rewrite IH. now destruct wr.
Qed.

Lemma apply_writes_active (ws : list shadow_write) (p : PrimaryMirrorControl) :
  CommandStates_Eng (apply_writes ws p) = CommandStates_Eng p.
Proof.
  unfold apply_writes. revert p.
  induction ws as [ | wr ws IH ]; intros p; [ reflexivity | ].
  cbn [fold_left]. rewrite IH. now destruct wr.
Qed.

Lemma apply_writes_keeps_updated (ws : list shadow_write) (p : PrimaryMirrorControl) :
  anyUpdated p = true -> anyUpdated (apply_writes ws p) = true.
Proof.
  unfold apply_writes. revert p.
  induction ws as [ | wr ws IH ]; intros p Hp; [ exact Hp | ].
  cbn [fold_left]. apply IH.
  unfold anyUpdated in *. destruct wr; cbn;
    destruct (focusUpdated p), (tipUpdated p), (tiltUpdated p);
    reflexivity || discriminate.
Qed.

Lemma apply_writes_updated (ws : list shadow_write) (p : PrimaryMirrorControl) :
  ws <> [] -> anyUpdated (apply_writes ws p) = true.
Proof.
  destruct ws as [ | wr ws ]; [ congruence | intros _ ].
  unfold apply_writes. cbn [fold_left].
  apply apply_writes_keeps_updated.
  unfold anyUpdated. destruct wr; cbn;
    destruct (focusUpdated p), (tipUpdated p), (tiltUpdated p); reflexivity.
Qed.

Lemma last_tip_written (ws : list shadow_write) (x y : R) :
  writes_tip ws = true -> last_tip ws x = last_tip ws y.
Proof.
  revert x y. induction ws as [ | wr ws IH ]; intros x y H; [ discriminate | ].
  destruct wr; cbn in *; try (now apply IH).
  reflexivity.
Qed.

Lemma last_tilt_written (ws : list shadow_write) (x y : R) :
  writes_tilt ws = true -> last_tilt ws x = last_tilt ws y.
Proof.
  revert x y. induction ws as [ | wr ws IH ]; intros x y H; [ discriminate | ].
  destruct wr; cbn in *; try (now apply IH).
  reflexivity.
Qed.

Lemma last_focus_written (ws : list shadow_write) (x y : R) :
  writes_focus ws = true -> last_focus ws x = last_focus ws y.
Proof.
  revert x y. induction ws as [ | wr ws IH ]; intros x y H; [ discriminate | ].
  destruct wr; cbn in *; try (now apply IH).
  reflexivity.
Qed.

Lemma checkForNewCommand_promotes (p : PrimaryMirrorControl) :
  anyUpdated p = true ->
  fst (checkForNewCommand p) = true /\
  CommandStates_Eng (snd (checkForNewCommand p)) = ShadowCommandStates_Eng p /\
  ShadowCommandStates_Eng (snd (checkForNewCommand p)) = ShadowCommandStates_Eng p /\
  anyUpdated (snd (checkForNewCommand p)) = false.
Proof.
  unfold anyUpdated, checkForNewCommand. intros ->. cbn.
  repeat split. unfold operator_assign. now destruct (ShadowCommandStates_Eng p).
Qed.

Lemma checkForNewCommand_shadow (p : PrimaryMirrorControl) :
  ShadowCommandStates_Eng (snd (checkForNewCommand p)) = ShadowCommandStates_Eng p.
Proof.
  unfold checkForNewCommand.
  now destruct (focusUpdated p || tipUpdated p || tiltUpdated p).
Qed.

Lemma run_events_shadow (evs : list buffer_event) (p : PrimaryMirrorControl) :
  ShadowCommandStates_Eng (run_events evs p) =
  mkMirrorStates
    (last_tip (writes_of evs) (TIP_POS_ENG (ShadowCommandStates_Eng p)))
    (last_tilt (writes_of evs) (TILT_POS_ENG (ShadowCommandStates_Eng p)))
    (last_focus (writes_of evs) (FOCUS_POS_ENG (ShadowCommandStates_Eng p))).
Proof.
  unfold run_events. revert p.
  induction evs as [ | ev evs IH ]; intros p.
  - cbn. now destruct (ShadowCommandStates_Eng p).
  - cbn [fold_left]. rewrite IH. destruct ev as [ wr | ].
    + now destruct wr.
    + cbn [buffer_step writes_of flat_map app]. now rewrite checkForNewCommand_shadow.
Qed.

Lemma tick_synchronises (p : PrimaryMirrorControl) :
  buffers_consistent p ->
  CommandStates_Eng (snd (checkForNewCommand p)) = ShadowCommandStates_Eng p.
Proof.
  intros Hcons. destruct (anyUpdated p) eqn:Hany.
  - now destruct (checkForNewCommand_promotes p Hany) as (_ & Hact & _).
  - unfold checkForNewCommand. unfold anyUpdated in Hany. rewrite Hany. cbn.
    apply Hcons. exact Hany.
Qed.

Lemma buffer_step_consistent (p : PrimaryMirrorControl) (ev : buffer_event) :
  buffers_consistent p -> buffers_consistent (buffer_step p ev).
Proof.
  intros Hcons. destruct ev as [ wr | ]; cbn [buffer_step].
  - intros Hnone. exfalso.
    assert (Hany : anyUpdated (apply_writes [wr] p) = true)
      by (apply apply_writes_updated; discriminate).
    cbn in Hany. congruence.
  - intros _. rewrite checkForNewCommand_shadow. now apply tick_synchronises.
Qed.

Lemma run_events_consistent (evs : list buffer_event) (p : PrimaryMirrorControl) :
  buffers_consistent p -> buffers_consistent (run_events evs p).
Proof.
  unfold run_events. revert p.
  induction evs as [ | ev evs IH ]; intros p Hcons; [ exact Hcons | ].
  cbn [fold_left]. apply IH. now apply buffer_step_consistent.
Qed.

Lemma run_events_then_tick (evs : list buffer_event) (p : PrimaryMirrorControl) :
  run_events (evs ++ [E_tick]) p = snd (checkForNewCommand (run_events evs p)).
Proof. unfold run_events. now rewrite fold_left_app. Qed.

(** C3, as stated, fails: [setTipTarget] followed by the tick's
    [checkForNewCommand] leaves in the active buffer the new tip together with
    the tilt and the focus of the command before. *)
Lemma tip_alone_is_promoted_with_stale_fields :
  CommandStates_Eng controller_after_first_command = mkMirrorStates 1 2 3 /\
  CommandStates_Eng
    (snd (checkForNewCommand
            (apply_writes [W_tip 0.01] controller_after_first_command))) =
  mkMirrorStates 0.01 2 3.
Proof. split; reflexivity. Qed.

(** C3 (amended): for every interleaving of shadow-buffer writes
    (setTipTarget, setTiltTarget, setFocusTarget) and control ticks, started
    with the two buffers consistent, a tick's [checkForNewCommand] leaves the
    active buffer equal to the shadow buffer as a whole, as it is at that
    tick: each field is the value last written to that field so far, whether
    or not ticks fell between the writes.  Nothing older than the sequence is
    left in it when the sequence has written all three fields; otherwise the
    fields not yet written keep their earlier values.  The copy itself,
    [operator=], is one atomic block: it yields one state of its source
    whatever interrupt requests arrive while it runs. *)
Theorem tick_promotes_shadow_as_a_whole
    (evs : list buffer_event) (p : PrimaryMirrorControl) :
  buffers_consistent p ->
  CommandStates_Eng (run_events (evs ++ [E_tick]) p) =
    ShadowCommandStates_Eng (run_events (evs ++ [E_tick]) p) /\
  CommandStates_Eng (run_events (evs ++ [E_tick]) p) =
    mkMirrorStates
      (last_tip (writes_of evs) (TIP_POS_ENG (ShadowCommandStates_Eng p)))
      (last_tilt (writes_of evs) (TILT_POS_ENG (ShadowCommandStates_Eng p)))
      (last_focus (writes_of evs) (FOCUS_POS_ENG (ShadowCommandStates_Eng p))) /\
  (writes_tip (writes_of evs) && writes_tilt (writes_of evs)
     && writes_focus (writes_of evs) = true ->
   forall p' : PrimaryMirrorControl,
     buffers_consistent p' ->
     CommandStates_Eng (run_events (evs ++ [E_tick]) p') =
     CommandStates_Eng (run_events (evs ++ [E_tick]) p)) /\
  (forall (reqs : list (option isr)) (m : copy_machine),
     cm_this (run_stmts operator_assign_body reqs m) =
     operator_assign (cm_this m) (cm_other (raise_irq (hd None reqs) m))).
Proof.
  intros Hcons.
  assert (Hsnap : forall q, buffers_consistent q ->
    CommandStates_Eng (run_events (evs ++ [E_tick]) q) =
    mkMirrorStates
      (last_tip (writes_of evs) (TIP_POS_ENG (ShadowCommandStates_Eng q)))
      (last_tilt (writes_of evs) (TILT_POS_ENG (ShadowCommandStates_Eng q)))
      (last_focus (writes_of evs) (FOCUS_POS_ENG (ShadowCommandStates_Eng q)))).
  { intros q Hq. rewrite run_events_then_tick.
    rewrite tick_synchronises by now apply run_events_consistent.
    apply run_events_shadow. }
  split; [ | split; [ now apply Hsnap | split; [ | exact operator_assign_atomic ] ] ].
  - rewrite run_events_then_tick, checkForNewCommand_shadow.
    apply tick_synchronises. now apply run_events_consistent.
  - intros Hall p' Hcons'. rewrite !Hsnap by assumption.
    apply andb_prop in Hall. destruct Hall as [Hall Hfocus].
    apply andb_prop in Hall. destruct Hall as [Htip Htilt].
    f_equal.
    + now apply last_tip_written.
    + now apply last_tilt_written.
    + now apply last_focus_written.
Qed.

Lemma tick_promotes_shadow_as_a_whole_witness :
  buffers_consistent sample_controller /\
  CommandStates_Eng
    (run_events
       ([E_write (W_tip 0.01); E_tick; E_write (W_tilt 0); E_write (W_focus 50)]
        ++ [E_tick])
       sample_controller) =
  mkMirrorStates 0.01 0 50.
Proof.
  assert (Hcons : buffers_consistent sample_controller) by (intros _; reflexivity).
  split; [ exact Hcons | ].
  exact (proj1 (proj2 (tick_promotes_shadow_as_a_whole
    [E_write (W_tip 0.01); E_tick; E_write (W_tilt 0); E_write (W_focus 50)]
    sample_controller Hcons))).
Defined.

(** ** C4: Stop *)

(** C4: whatever the state of the controller, and so for each of the six
    [MOVE_STATE] values, [stopNow] leaves [currentMoveState = IDLE] (and the
    homing state at [INITIALIZE]) with zero commanded velocity on the three
    actuators; the [stop] handler does exactly that to the controller and
    always answers "Stopped": "$OK^". *)
Theorem stop_always_reaches_IDLE (lst : R) (w : World) (p : PrimaryMirrorControl) :
  currentMoveState (stopNow p) = IDLE /\
  currentHomingState (stopNow p) = INITIALIZE /\
  (forall motor : PMC.MOTOR_ID, commandedSpeed (stepperControl (stopNow p)) motor = 0) /\
  pPmc (stop lst w) = stopNow (pPmc w) /\
  outbox (stop lst w) =
    outbox w ++ [([("Stopped"%string, V_string "$OK^")], ACTIVE_CONNECTION)].
Proof.
  repeat split. intros motor. now destruct motor.
Qed.

(** ** C10: Handshake *)

(** C10: the [handshake] handler sends the reply ("Handshake", 0xBEEF) if and
    only if its argument is 0xDEAD; for every other argument it sends nothing
    and leaves the whole state, the controller included, as it was. *)
Theorem handshake_replies_iff_DEAD (val : Z) (w : World) :
  outbox (handshake val w) =
    outbox w ++ (if (val =? 0xDEAD)%Z
                 then [([("Handshake"%string, V_uint 0xBEEF)], ACTIVE_CONNECTION)]
                 else []) /\
  (outbox (handshake val w) <> outbox w <-> val = 0xDEAD%Z) /\
  (val <> 0xDEAD%Z -> handshake val w = w) /\
  pPmc (handshake val w) = pPmc w /\
  eeprom (handshake val w) = eeprom w.
Proof.
  unfold handshake.
  destruct (Z.eqb_spec val 0xDEAD) as [-> | Hne]; cbn.
  - repeat split; try congruence.
    intros _ H. apply (f_equal (@List.length _)) in H.
    rewrite length_app in H. cbn in H. lia.
  - rewrite app_nil_r. repeat split; congruence.
Qed.

(** ** C9: MoveType *)

(** C9, as stated, fails: the argument 258 does not reach the controller as the
    raw value; [setControlMode] receives 2, the value of ABSOLUTE. *)
Lemma moveType_258_not_forwarded_raw :
  controlMode (pPmc (moveType 258 sample_world)) = PMC.ControlMode_value PMC.ABSOLUTE /\
  controlMode (pPmc (moveType 258 sample_world)) <> 258%Z.
Proof. split; [ reflexivity | discriminate ]. Qed.

(** C9 (amended): for every unsigned integer argument, values outside the
    ControlMode enum included, the MoveType handler passes the argument to
    [setControlMode] without validation and never sends a reply; as the
    parameter of [setControlMode] is a [uint8_t], the controller receives the
    argument modulo 256, the raw value itself whenever it is below 256. *)
Theorem moveType_forwards_unvalidated (type : Z) (w : World) :
  (0 <= type <= UINT_MAX)%Z ->
  pPmc (moveType type w) = setControlMode (type mod 256) (pPmc w) /\
  controlMode (pPmc (moveType type w)) = (type mod 256)%Z /\
  ((type < 256)%Z -> controlMode (pPmc (moveType type w)) = type) /\
  outbox (moveType type w) = outbox w /\
  debugMessages (moveType type w) = debugMessages w.
Proof.
  intros [Hlo Hhi]. repeat split.
  intros Hsmall. cbn. unfold to_uint8. apply Z.mod_small. lia.
Qed.

Lemma moveType_forwards_unvalidated_witness :
  (0 <= 7 <= UINT_MAX)%Z /\
  controlMode (pPmc (moveType 7 sample_world)) = 7%Z /\
  outbox (moveType 7 sample_world) = [].
Proof.
  assert (Hrange : (0 <= 7 <= UINT_MAX)%Z) by (unfold UINT_MAX; lia).
  destruct (moveType_forwards_unvalidated 7 sample_world Hrange)
    as (_ & _ & Hraw & Hout & _).
  split; [ exact Hrange | split; [ apply Hraw; lia | exact Hout ] ].
Defined.

(** ** C6: GetStatus *)

(** C6 fails on the code: whatever the body of
    [PrimaryMirrorControl::getStatus], the reply of the GetStatus handler
    carries one boolean per motor under the keys "ARunning?", "BRunning?" and
    "CRunning?", and one boolean cannot carry the three bits faulted, home and
    moving: however it is decoded, some status is never reported. *)
Theorem getStatus_reports_one_boolean_per_motor
    (getStatus_body : PrimaryMirrorControl -> Z -> bool) (lst : R) (w : World) :
  outbox (getStatus getStatus_body lst w) =
    outbox w ++
    [([("ARunning?"%string, V_bool (getStatus_body (pPmc w) 0%Z));
       ("BRunning?"%string, V_bool (getStatus_body (pPmc w) 1%Z));
       ("CRunning?"%string, V_bool (getStatus_body (pPmc w) 2%Z))],
      ACTIVE_CONNECTION)] /\
  forall decode : bool -> StatusBits,
    exists bits : StatusBits,
      forall (p : PrimaryMirrorControl) (motor : Z),
        decode (getStatus_body p motor) <> bits.
Proof.
  split; [ reflexivity | ].
  intros decode.
  exists (mkStatusBits (negb (faulted (decode true))) (negb (home (decode false))) false).
  intros p motor Heq.
  destruct (getStatus_body p motor).
  - apply (f_equal faulted) in Heq. cbn in Heq.
    now destruct (faulted (decode true)).
  - apply (f_equal home) in Heq. cbn in Heq.
    now destruct (home (decode false)).
Qed.

(** ** C7: notifier flags *)

(** C7 fails on the code for the homing-complete flag: [setup] registers
    [moveCompleteFlag] as the move notifier and leaves [homeNotifierFlagPtr] as
    the constructor left it; the notifier part of [loop] looks at
    [moveCompleteFlag] only, reports it with one "MoveComplete" message when it
    is set and clears it, and sends nothing else. *)
Theorem only_move_complete_is_notified (w : World) :
  moveNotifierFlagPtr (pPmc (setup w)) = Some The_moveCompleteFlag /\
  homeNotifierFlagPtr (pPmc (setup w)) = homeNotifierFlagPtr (pPmc w) /\
  outbox (loop_notifiers w) =
    outbox w ++ (if moveCompleteFlag w
                 then [([("MoveComplete"%string, V_uint 0xBEEF)], ACTIVE_CONNECTION)]
                 else []) /\
  moveCompleteFlag (loop_notifiers w) = false /\
  pPmc (loop_notifiers w) = pPmc w.
Proof.
  unfold loop_notifiers.
  split; [ | split; [ | destruct (moveCompleteFlag w) eqn:Hflag; cbn;
                        rewrite ?app_nil_r; repeat split; assumption ] ].
  - unfold setup. cbn. unfold loadCurrentPositionsFromEeprom. now cbn.
  - unfold setup. cbn. unfold loadCurrentPositionsFromEeprom. now cbn.
Qed.

(** ** C2: restoring the stored position at startup *)

(** C2 fails on the code: [setup] calls [resetPositionsInEeprom] before
    [loadCurrentPositionsFromEeprom], so the load never finds a valid record:
    whatever was stored, also a record just written by
    [saveStepperPositionsToEeprom], the step counts of the controller are not
    restored and the stored record is left invalid. *)
Theorem setup_resets_before_loading (w : World) (p : PrimaryMirrorControl) :
  load (saveStepperPositionsToEeprom p (eeprom w)) =
    Some (A_cmdSteps p, B_cmdSteps p, C_cmdSteps p) /\
  load (eeprom (setup w)) = None /\
  A_cmdSteps (pPmc (setup w)) = A_cmdSteps (pPmc w) /\
  B_cmdSteps (pPmc (setup w)) = B_cmdSteps (pPmc w) /\
  C_cmdSteps (pPmc (setup w)) = C_cmdSteps (pPmc w) /\
  load (eeprom sample_world) = Some (100, 200, 300)%Z /\
  (A_cmdSteps (pPmc (setup sample_world)),
   B_cmdSteps (pPmc (setup sample_world)),
   C_cmdSteps (pPmc (setup sample_world))) = (0, 0, 0)%Z.
Proof.
  repeat split.
Qed.

(** ** A tick between setter calls

    A tick that falls between two setter calls promotes the shadow buffer as it
    is then: here the new tip with the focus still to be written. *)
Lemma tick_between_writes_promotes_partial :
  CommandStates_Eng
    (snd (checkForNewCommand (apply_writes [W_tip 0.01] sample_controller))) =
  mkMirrorStates 0.01 0 0.
Proof. reflexivity. Qed.

(** * Further properties of the embedded code *)

(** ** The integer conversion *)

Lemma Rtrunc_opp (x : R) : Rtrunc (- x) = (- Rtrunc x)%Z.
Proof.
  unfold Rtrunc.
  destruct (Rle_dec 0 x) as [Hx | Hx]; destruct (Rle_dec 0 (- x)) as [Hn | Hn].
  - assert (x = 0) by lra. subst x. rewrite Ropp_0.
    rewrite (Int_part_unique 0 0) by (simpl; lra). reflexivity.
  - rewrite Ropp_involutive. reflexivity.
  - lia.
  - lra.
Qed.

Lemma Rtrunc_monotone (x y : R) : x <= y -> (Rtrunc x <= Rtrunc y)%Z.
Proof.
  intros Hxy.
  destruct (Rtrunc_toward_zero x) as [Hxp Hxn].
  destruct (Rtrunc_toward_zero y) as [Hyp Hyn].
  apply Z.lt_succ_r. apply lt_IZR. rewrite succ_IZR.
  destruct (Rle_dec 0 x) as [Hx | Hx]; destruct (Rle_dec 0 y) as [Hy | Hy].
  - specialize (Hxp Hx). specialize (Hyp Hy). lra.
  - lra.
  - assert (Hx' : x < 0) by lra. specialize (Hxn Hx'). specialize (Hyp Hy). lra.
  - assert (Hx' : x < 0) by lra. assert (Hy' : y < 0) by lra.
    specialize (Hxn Hx'). specialize (Hyn Hy'). lra.
Qed.

Lemma Rtrunc_int32_inv (x : R) :
  (INT32_MIN <= Rtrunc x <= INT32_MAX)%Z -> fits_int32 x.
Proof.
  unfold INT32_MIN, INT32_MAX, fits_int32. intros [Hlo Hhi].
  destruct (Rtrunc_toward_zero x) as [Hp Hn].
  apply IZR_le in Hlo. apply IZR_le in Hhi.
  destruct (Rle_dec 0 x) as [Hx | Hx].
  - specialize (Hp Hx). lra.
  - assert (Hx' : x < 0) by lra. specialize (Hn Hx'). lra.
Qed.

Lemma static_cast_int32_Some (x : R) (z : Z) :
  static_cast (T := Z) x = Some z <-> fits_int32 x /\ z = Rtrunc x.
Proof.
  split.
  - unfold static_cast, StepType_int32. cbv zeta.
    destruct ((INT32_MIN <=? Rtrunc x) && (Rtrunc x <=? INT32_MAX))%Z eqn:Hr;
      [ | discriminate ].
    intros H. injection H as <-.
    apply andb_prop in Hr. destruct Hr as [Hlo Hhi].
    apply Z.leb_le in Hlo. apply Z.leb_le in Hhi.
    split; [ apply Rtrunc_int32_inv; lia | reflexivity ].
  - intros [Hfit ->]. now apply static_cast_int32_in_range.
Qed.

Lemma getMotorPosnCommands_Some (this : MirrorStates) (a_steps b_steps c_steps : Z) :
  getMotorPosnCommands this = Some (a_steps, b_steps, c_steps) <->
  (fits_int32 (a_distance this * STEPS_PER_MICRON) /\
   a_steps = Rtrunc (a_distance this * STEPS_PER_MICRON)) /\
  (fits_int32 (b_distance this * STEPS_PER_MICRON) /\
   b_steps = Rtrunc (b_distance this * STEPS_PER_MICRON)) /\
  (fits_int32 (c_distance this * STEPS_PER_MICRON) /\
   c_steps = Rtrunc (c_distance this * STEPS_PER_MICRON)).
Proof.
  unfold getMotorPosnCommands.
  rewrite <- !static_cast_int32_Some.
  destruct (static_cast (a_distance this * STEPS_PER_MICRON)) as [a | ];
    destruct (static_cast (b_distance this * STEPS_PER_MICRON)) as [b | ];
    destruct (static_cast (c_distance this * STEPS_PER_MICRON)) as [c0 | ];
    cbn; split; try discriminate;
    try (intros H; injection H as <- <- <-; now repeat split);
    try (intros (Ha & Hb & Hc); congruence).
Qed.

(** ** Kinematics *)

(** X1: with tip = 0 and tilt = 0 the three actuators get one and the same
    step count, the conversion of [focus * STEPS_PER_MICRON], whatever the step
    type; in particular a command that was [reset()] gives (0, 0, 0). *)
Theorem level_command_moves_actuators_alike
    (T : Type) (cast : StepType T) (focus : R) (this : MirrorStates) :
  getMotorPosnCommands (mkMirrorStates 0 0 focus) =
    (steps <- static_cast (focus * STEPS_PER_MICRON) ;; Some (steps, steps, steps)) /\
  getMotorPosnCommands (T := Z) (reset this) = Some (0, 0, 0)%Z.
Proof.
  split.
  - destruct (distances_level focus) as (Ha & Hb & Hc).
    unfold getMotorPosnCommands. rewrite Ha, Hb, Hc.
    destruct (static_cast (focus * STEPS_PER_MICRON)); reflexivity.
  - destruct (distances_level 0) as (Ha & Hb & Hc).
    unfold reset, getMotorPosnCommands. rewrite Ha, Hb, Hc, Rmult_0_l.
    rewrite static_cast_int32_in_range by lra. cbn [bind].
    rewrite (Rtrunc_nonneg 0 0) by (simpl; lra). reflexivity.
Qed.

Lemma distances_focus_shift (tip tilt focus d : R) :
  a_distance (mkMirrorStates tip tilt (focus + d)) =
    a_distance (mkMirrorStates tip tilt focus) + d /\
  b_distance (mkMirrorStates tip tilt (focus + d)) =
    b_distance (mkMirrorStates tip tilt focus) + d /\
  c_distance (mkMirrorStates tip tilt (focus + d)) =
    c_distance (mkMirrorStates tip tilt focus) + d.
Proof.
  unfold a_distance, b_distance, c_distance.
  cbn [TIP_POS_ENG TILT_POS_ENG FOCUS_POS_ENG].
  unfold Rdiv. repeat split; ring.
Qed.

Lemma level_steps_03 :
  getMotorPosnCommands (T := Z) (mkMirrorStates 0 0 0.3) = Some (1, 1, 1)%Z.
Proof.
  destruct (distances_level 0.3) as (Ha & Hb & Hc).
  unfold getMotorPosnCommands.
  rewrite Ha, Hb, Hc, STEPS_PER_MICRON_val.
  rewrite !static_cast_int32_in_range by lra.
  cbn [bind].
  rewrite (Rtrunc_nonneg (0.3 * (16 / 3)) 1) by lra.
  reflexivity.
Qed.

(** X4: for a fixed tip and tilt the step counts are monotone in the focus
    input: a larger focus never gives a smaller step count on any actuator. *)
Theorem steps_monotone_in_focus
    (tip tilt focus1 focus2 : R) (steps1 steps2 : Z * Z * Z) :
  focus1 <= focus2 ->
  getMotorPosnCommands (mkMirrorStates tip tilt focus1) = Some steps1 ->
  getMotorPosnCommands (mkMirrorStates tip tilt focus2) = Some steps2 ->
  (fst (fst steps1) <= fst (fst steps2))%Z /\
  (snd (fst steps1) <= snd (fst steps2))%Z /\
  (snd steps1 <= snd steps2)%Z.
Proof.
  intros Hle H1 H2.
  destruct steps1 as [[a1 b1] c1]. destruct steps2 as [[a2 b2] c2].
  apply getMotorPosnCommands_Some in H1. apply getMotorPosnCommands_Some in H2.
  destruct H1 as ((_ & ->) & (_ & ->) & (_ & ->)).
  destruct H2 as ((_ & ->) & (_ & ->) & (_ & ->)).
  destruct (distances_focus_shift tip tilt focus1 (focus2 - focus1)) as (Ha & Hb & Hc).
  replace (focus1 + (focus2 - focus1)) with focus2 in Ha, Hb, Hc by ring.
  rewrite Ha, Hb, Hc, STEPS_PER_MICRON_val. cbn [fst snd].
  repeat split; apply Rtrunc_monotone; lra.
Qed.

Lemma steps_monotone_in_focus_witness :
  0.15 <= 0.3 /\
  (fst (fst (0, 0, 0)%Z) <= fst (fst (1, 1, 1)%Z))%Z.
Proof.
  assert (Hle : 0.15 <= 0.3) by lra.
  split; [ exact Hle | ].
  exact (proj1 (steps_monotone_in_focus 0 0 0.15 0.3 (0, 0, 0)%Z (1, 1, 1)%Z
                  Hle small_focus_steps level_steps_03)).
Defined.

Lemma distances_command_negated (tip tilt focus : R) :
  a_distance (mkMirrorStates (- tip) (- tilt) (- focus)) =
    - a_distance (mkMirrorStates tip tilt focus) /\
  b_distance (mkMirrorStates (- tip) (- tilt) (- focus)) =
    - b_distance (mkMirrorStates tip tilt focus) /\
  c_distance (mkMirrorStates (- tip) (- tilt) (- focus)) =
    - c_distance (mkMirrorStates tip tilt focus).
Proof.
  unfold a_distance, b_distance, c_distance.
  cbn [TIP_POS_ENG TILT_POS_ENG FOCUS_POS_ENG].
  rewrite !tan_neg, cos_neg. unfold Rdiv. repeat split; ring.
Qed.

Lemma static_cast_int32_opp (x : R) (z : Z) :
  static_cast (T := Z) x = Some z -> (INT32_MIN < z)%Z ->
  static_cast (T := Z) (- x) = Some (- z)%Z.
Proof.
  intros H Hmin. apply static_cast_int32_Some in H. destruct H as [Hfit ->].
  apply Rtrunc_int32 in Hfit.
  unfold static_cast, StepType_int32. cbv zeta. rewrite Rtrunc_opp.
  unfold INT32_MIN, INT32_MAX in *.
  replace ((-2147483648 <=? - Rtrunc x) && (- Rtrunc x <=? 2147483647))%Z
    with true; [ reflexivity | ].
  symmetry. apply andb_true_intro. split; apply Z.leb_le; lia.
Qed.

(** X5: the conversion is odd: negating tip, tilt and focus together negates
    the three step counts (provided none of them is [INT32_MIN], whose
    opposite is not an [int32_t]). *)
Theorem negated_command_negates_steps
    (tip tilt focus : R) (a_steps b_steps c_steps : Z) :
  getMotorPosnCommands (mkMirrorStates tip tilt focus) =
    Some (a_steps, b_steps, c_steps) ->
  (INT32_MIN < a_steps)%Z -> (INT32_MIN < b_steps)%Z -> (INT32_MIN < c_steps)%Z ->
  getMotorPosnCommands (mkMirrorStates (- tip) (- tilt) (- focus)) =
    Some (- a_steps, - b_steps, - c_steps)%Z.
Proof.
  intros H Ha Hb Hc.
  destruct (distances_command_negated tip tilt focus) as (Ea & Eb & Ec).
  unfold getMotorPosnCommands in *. rewrite Ea, Eb, Ec.
  rewrite !Ropp_mult_distr_l_reverse.
  destruct (static_cast (a_distance _ * _)) as [a | ] eqn:Ca; [ | discriminate ].
  destruct (static_cast (b_distance _ * _)) as [b | ] eqn:Cb; [ | discriminate ].
  destruct (static_cast (c_distance _ * _)) as [c0 | ] eqn:Cc; [ | discriminate ].
  cbn in H. injection H as -> -> ->.
  rewrite (static_cast_int32_opp _ _ Ca Ha), (static_cast_int32_opp _ _ Cb Hb),
    (static_cast_int32_opp _ _ Cc Hc).
  reflexivity.
Qed.

Lemma negated_command_negates_steps_witness :
  getMotorPosnCommands (mkMirrorStates 0.01 0 50) = Some (281, 259, 259)%Z /\
  getMotorPosnCommands (mkMirrorStates (Ropp 0.01) (Ropp 0) (Ropp 50)) =
    Some (Z.opp 281, Z.opp 259, Z.opp 259).
Proof.
  split; [ exact example_steps | ].
  apply (negated_command_negates_steps 0.01 0 50 281 259 259 example_steps);
    unfold INT32_MIN; lia.
Defined.


(** ** main.cpp: the ten handlers together *)

Section AllHandlers.

Variable goHome_body : R -> PrimaryMirrorControl -> PrimaryMirrorControl.
Variable setFanSpeed_body : Z -> PrimaryMirrorControl -> PrimaryMirrorControl.
Variable getPosition_body : PrimaryMirrorControl -> Z -> R.
Variable getStatus_body : PrimaryMirrorControl -> Z -> bool.

Local Notation handler :=
  (Main.handler goHome_body setFanSpeed_body getPosition_body getStatus_body).
Local Notation processClientData :=
  (Main.processClientData goHome_body setFanSpeed_body getPosition_body getStatus_body).

Lemma handler_outbox (w : World) (m : Message) :
  exists sent : list (CommsMessage * Destination),
    outbox (handler w m) = outbox w ++ sent /\
    map first_key sent = reply_key m.
Proof.
  destruct m; cbn;
    try (now eexists; split; [ reflexivity | reflexivity ]);
    try (exists []; split; [ now rewrite app_nil_r | reflexivity ]).
  unfold handshake. destruct (val =? 57005)%Z; cbn.
  - eexists; split; reflexivity.
  - exists []. split; [ now rewrite app_nil_r | reflexivity ].
Qed.

Lemma processClientData_cons (m : Message) (msgs : list Message) (w : World) :
  processClientData (m :: msgs) w = processClientData msgs (handler w m).
Proof. reflexivity. Qed.

(** X10: the messages sent while the received ones are handled are appended to
    those sent before, one per Handshake carrying 0xDEAD, FindHome, GetStatus,
    GetPositions and Stop, in the order of the requests; MoveType, SetTip,
    SetTilt, SetFocus, SetFanSpeed and a Handshake with another value are never
    answered. *)
Theorem replies_follow_requests (msgs : list Message) (w : World) :
  exists sent : list (CommsMessage * Destination),
    outbox (processClientData msgs w) = outbox w ++ sent /\
    map first_key sent = flat_map reply_key msgs.
Proof.
  revert w. induction msgs as [ | m msgs IH ]; intros w.
  - exists []. split; [ cbn; now rewrite app_nil_r | reflexivity ].
  - destruct (handler_outbox w m) as (sent1 & Hout1 & Hkeys1).
    destruct (IH (handler w m)) as (sent2 & Hout2 & Hkeys2).
    exists (sent1 ++ sent2). split.
    + rewrite processClientData_cons, Hout2, Hout1. now rewrite app_assoc.
    + cbn [flat_map]. now rewrite map_app, Hkeys1, Hkeys2.
Qed.

End AllHandlers.
